(* ===================================================================== *)
(* witi ("Why Is This Installed?"): the package index, the reverse       *)
(* dependency map and the installation-chain finder of the main package, *)
(* embedded in Rocq and checked against the specification.               *)
(* ===================================================================== *)

From stdpp Require Import gmap strings list fin_maps pretty.
From Stdlib Require Import Ascii.

(* --------------------------------------------------------------------- *)
(* Go strings                                                            *)
(* --------------------------------------------------------------------- *)
(* A Go string is a sequence of bytes; [string] is a sequence of [ascii]
   bytes.  strings.FieldsFunc walks the UTF-8 runes of its argument, but
   every separator tested by this program is an ASCII character: such a
   byte never occurs inside a multi-byte rune and an invalid byte decodes
   to U+FFFD, so cutting at separator bytes cuts exactly where Go cuts. *)

Module GoStrings.

(* strings.FieldsFunc(s, f): the maximal runs of characters that do not
   satisfy f.  [start] is the field being scanned (Go keeps its start
   index, [None] is the negative index "no open field"); the last field
   may end at the end of the string. *)
Fixpoint FieldsFunc_from (f : ascii -> bool) (start : option string)
         (s : string) : list string :=
  match s with
  | EmptyString =>
      match start with
      | Some field => [field]
      | None => []
      end
  | String r s' =>
      if f r then
        match start with
        | Some field => field :: FieldsFunc_from f None s'
        | None => FieldsFunc_from f None s'
        end
      else
        match start with
        | Some field => FieldsFunc_from f (Some (field +:+ String r "")) s'
        | None => FieldsFunc_from f (Some (String r "")) s'
        end
  end.

Definition FieldsFunc (s : string) (f : ascii -> bool) : list string :=
  FieldsFunc_from f None s.

(* strings.HasPrefix and strings.HasSuffix *)
Definition HasPrefix (s prefix : string) : bool := String.prefix prefix s.

Definition HasSuffix (s suffix : string) : bool :=
  let n := String.length s in
  let k := String.length suffix in
  Nat.leb k n && String.eqb (String.substring (n - k) k s) suffix.

(* strings.Trim(s, cutset) for a cutset of ASCII characters: all leading
   and trailing characters contained in the cutset are removed. *)
Fixpoint inCutset (cutset : string) (r : ascii) : bool :=
  match cutset with
  | EmptyString => false
  | String c cutset' => Ascii.eqb r c || inCutset cutset' r
  end.

Fixpoint TrimLeft (s cutset : string) : string :=
  match s with
  | EmptyString => EmptyString
  | String r s' => if inCutset cutset r then TrimLeft s' cutset else s
  end.

Fixpoint TrimRight (s cutset : string) : string :=
  match s with
  | EmptyString => EmptyString
  | String r s' =>
      match TrimRight s' cutset with
      | EmptyString => if inCutset cutset r then EmptyString else String r EmptyString
      | t => String r t
      end
  end.

Definition Trim (s cutset : string) : string :=
  TrimRight (TrimLeft s cutset) cutset.

(* strings.TrimSpace as it acts on ASCII text: the white space cut is
   space, \t, \n, \v, \f and \r.  (On other text Go also cuts the Unicode
   spaces outside ASCII; the loader below takes TrimSpace as a parameter
   and this instance is used to run it on examples.) *)
Definition asciiSpace : string :=
  String " " (String "009" (String "010" (String "011" (String "012"
    (String "013" EmptyString))))).

Definition TrimSpaceASCII (s : string) : string := Trim s asciiSpace.

End GoStrings.

(* --------------------------------------------------------------------- *)
(* cleanDependencyName                                                   *)
(* --------------------------------------------------------------------- *)

(* the func literal passed to FieldsFunc:
   r == ' ' || r == '<' || r == '>' || r == '=' *)
Definition isSeparator (r : ascii) : bool :=
  Ascii.eqb r " "%char || Ascii.eqb r "<"%char || Ascii.eqb r ">"%char || Ascii.eqb r "="%char.

(* strings.FieldsFunc(dep, ...)[0]; indexing an empty slice panics with
   "index out of range", which is [None] here. *)
Definition cleanDependencyName (dep : string) : option string :=
  match GoStrings.FieldsFunc dep isSeparator with
  | depName :: _ => Some depName
  | [] => None
  end.

(* The specification's wording of the normalisation: the substring up to,
   not including, the first character satisfying [sep]. *)
Fixpoint substringBeforeFirst (sep : ascii -> bool) (s : string) : string :=
  match s with
  | EmptyString => EmptyString
  | String r s' => if sep r then EmptyString else String r (substringBeforeFirst sep s')
  end.

(* '<', '>', '=' or whitespace, as the specification lists them:
   whitespace is space, \t, \n, \v, \f, \r. *)
Definition isWhitespace (r : ascii) : bool :=
  Ascii.eqb r " "%char || (Nat.leb 9 (nat_of_ascii r) && Nat.leb (nat_of_ascii r) 13).

Definition isSpecSeparator (r : ascii) : bool :=
  Ascii.eqb r "<"%char || Ascii.eqb r ">"%char || Ascii.eqb r "="%char || isWhitespace r.

(* the specifier starts with a character of the package name *)
Definition beginsWithName (dep : string) : bool :=
  match dep with
  | EmptyString => false
  | String r _ => negb (isSeparator r)
  end.

(* --------------------------------------------------------------------- *)
(* Data model                                                            *)
(* --------------------------------------------------------------------- *)

(* type Package struct *)
Record Package : Type := mkPackage {
  Name : string;
  Version : string;
  InstallReason : string;
  Dependencies : list string;
  RequiredBy : list string
}.

(* type InstallChain []string *)
Definition InstallChain : Type := list string.

(* type PackageCache struct { packages map[string]*Package }.
   loadAllPackages stores under every key a record freshly allocated by
   parseDescFile, so no two keys share a pointer: the map owns its
   records, and a write through the pointer found under a key is a
   replacement of the record stored under that key. *)
Record PackageCache : Type := mkCache {
  packages : gmap string Package
}.

(* the two values of InstallReason *)
Definition ExplicitlyInstalled : string := "Explicitly installed".
Definition InstalledAsDependency : string := "Installed as a dependency".

(* `for _, pkg := range cache.packages` yields every entry of the map once,
   in an order Go leaves unspecified and that may change from one loop to
   the next.  A function that ranges over the map takes the sequence of
   entries the loop yields; [rangeOf] says which sequences are possible. *)
Definition rangeOf (cache : PackageCache) (entries : list (string * Package)) : Prop :=
  entries ≡ₚ map_to_list (packages cache).

(* a run-time panic is [None] *)
Abbreviation Panic := None (only parsing).

(* outcome of a call whose recursion is bounded by fuel in this model *)
Inductive Run (A : Type) : Type :=
| Done (a : A)        (* the call returned a *)
| Panicked            (* the call panicked *)
| FuelExhausted.      (* the recursion bound of the model was reached *)
Arguments Done {A} a.
Arguments Panicked {A}.
Arguments FuelExhausted {A}.

(* a loop whose body may fail: the body is run on the elements in order,
   threading the state; the first failure ends the loop *)
Fixpoint forEach {A S : Type} (body : A -> S -> option S) (l : list A) (s : S)
  : option S :=
  match l with
  | [] => Some s
  | x :: l' =>
      match body x s with
      | Some s' => forEach body l' s'
      | None => None
      end
  end.

(* --------------------------------------------------------------------- *)
(* findRequiredBy                                                        *)
(* --------------------------------------------------------------------- *)

(* the inner loop over pkg.Dependencies: append pkg.Name at the first
   dependency whose cleaned name is pkgName, and break *)
Fixpoint findRequiredBy_deps (pkgName : string) (pkg : Package)
         (deps : list string) (requiredBy : list string) : option (list string) :=
  match deps with
  | [] => Some requiredBy
  | dep :: deps' =>
      match cleanDependencyName dep with
      | Panic => Panic
      | Some depName =>
          if String.eqb depName pkgName
          then Some (requiredBy ++ [Name pkg])
          else findRequiredBy_deps pkgName pkg deps' requiredBy
      end
  end.

Definition findRequiredBy (pkgName : string) (entries : list (string * Package))
  : option (list string) :=
  forEach (fun entry requiredBy =>
             findRequiredBy_deps pkgName entry.2 (Dependencies entry.2) requiredBy)
          entries [].

(* --------------------------------------------------------------------- *)
(* buildReverseDependencyMap                                             *)
(* --------------------------------------------------------------------- *)

(* reverseDeps[depName] = append(reverseDeps[depName], pkg.Name); a key
   that is absent reads as the nil slice *)
Definition addDependent (pkg : Package) (dep : string)
           (reverseDeps : gmap string (list string))
  : option (gmap string (list string)) :=
  match cleanDependencyName dep with
  | Panic => Panic
  | Some depName =>
      Some (<[depName := ((reverseDeps !!! depName) ++ [Name pkg])]> reverseDeps)
  end.

Definition buildReverseDependencyMap (entries : list (string * Package))
  : option (gmap string (list string)) :=
  forEach (fun entry reverseDeps =>
             forEach (addDependent entry.2) (Dependencies entry.2) reverseDeps)
          entries ∅.

(* --------------------------------------------------------------------- *)
(* dfsBackwards, reverseChain, findInstallationChains                    *)
(* --------------------------------------------------------------------- *)

(* visited[k] of a map[string]bool: an absent key reads false *)
Definition isVisited (visited : gmap string bool) (k : string) : bool :=
  default false (visited !! k).

Definition isExplicit (cache : PackageCache) (currentPkg : string) : bool :=
  match packages cache !! currentPkg with
  | Some pkg => String.eqb (InstallReason pkg) ExplicitlyInstalled
  | None => false
  end.

(* The state of the traversal is the visited map and the chains found so
   far (the slice behind the pointer [chains]); [path] is copied on every
   call, so it is a value.  The deferred assignment visited[currentPkg] =
   false runs on both returns that follow its registration. *)
Fixpoint dfsBackwards (fuel : nat) (cache : PackageCache)
         (reverseDeps : gmap string (list string))
         (currentPkg : string) (path : list string)
         (st : gmap string bool * list InstallChain)
  : option (gmap string bool * list InstallChain) :=
  match fuel with
  | 0 => None
  | S fuel' =>
      if isVisited st.1 currentPkg then Some st
      else
        let visited := <[currentPkg := true]> st.1 in
        let deferred (st' : gmap string bool * list InstallChain) :=
          (<[currentPkg := false]> st'.1, st'.2) in
        if isExplicit cache currentPkg
        then Some (deferred (visited, (st.2 ++ [path])))
        else
          deferred <$>
            forEach (fun dependentPkg st' =>
                       dfsBackwards fuel' cache reverseDeps dependentPkg
                                    (path ++ [dependentPkg]) st')
                    (reverseDeps !!! currentPkg) (visited, st.2)
  end.

(* chain[i], chain[j] = chain[j], chain[i]; the loop of reverseChain reaches
   it with i < j < len(chain) only, the other branch is never taken *)
Definition swap (chain : list string) (i j : nat) : list string :=
  match chain !! i, chain !! j with
  | Some x, Some y => <[j := x]> (<[i := y]> chain)
  | _, _ => chain
  end.

(* for i, j := 0, len(chain)-1; i < j; i, j = i+1, j-1 { swap }.
   [steps] bounds the number of iterations; for the empty chain j is -1
   in Go and 0 here, and the test i < j fails either way. *)
Fixpoint reverseChain_loop (steps i j : nat) (chain : list string) : list string :=
  match steps with
  | 0 => chain
  | S steps' =>
      if Nat.ltb i j
      then reverseChain_loop steps' (i + 1) (j - 1) (swap chain i j)
      else chain
  end.

Definition reverseChain (chain : list string) : list string :=
  reverseChain_loop (length chain) 0 (length chain - 1) chain.

Definition findInstallationChains (fuel : nat) (targetPkg : string)
           (cache : PackageCache) (entries : list (string * Package))
  : Run (list InstallChain) :=
  match buildReverseDependencyMap entries with
  | Panic => Panicked
  | Some reverseDeps =>
      match dfsBackwards fuel cache reverseDeps targetPkg [targetPkg] (∅, []) with
      | None => FuelExhausted
      | Some (visited, chains) => Done (reverseChain <$> chains)
      end
  end.

(* --------------------------------------------------------------------- *)
(* parseDescFile, loadAllPackages, getPackageInfo                        *)
(* --------------------------------------------------------------------- *)

(* a Go error value, by its message *)
Definition error : Type := string.

(* What parseDescFile sees of the file it is given: os.Open fails, or the
   scanner delivers the lines of the file and scanner.Err() reports how the
   scan ended (nil, or an error such as a line too long). *)
Inductive DescFile : Type :=
| Unreadable (err : error)
| Readable (lines : list string) (scanErr : option error).

(* an entry of os.ReadDir(pacmanLocalDBPath), with the file found at
   <entry>/desc *)
Record DirEntry : Type := mkEntry {
  entryName : string;
  IsDir : bool;
  desc : DescFile
}.

Section Loading.

Import GoStrings.

(* strings.TrimSpace, the library's: nothing below depends on what it
   cuts *)
Variable TrimSpace : string -> string.

Definition setName (pkg : Package) (line : string) : Package :=
  mkPackage line (Version pkg) (InstallReason pkg) (Dependencies pkg) (RequiredBy pkg).
Definition setVersion (pkg : Package) (line : string) : Package :=
  mkPackage (Name pkg) line (InstallReason pkg) (Dependencies pkg) (RequiredBy pkg).
Definition setInstallReason (pkg : Package) (reason : string) : Package :=
  mkPackage (Name pkg) (Version pkg) reason (Dependencies pkg) (RequiredBy pkg).
Definition appendDependency (pkg : Package) (line : string) : Package :=
  mkPackage (Name pkg) (Version pkg) (InstallReason pkg) (Dependencies pkg ++ [line])
            (RequiredBy pkg).
Definition setRequiredBy (pkg : Package) (requiredBy : list string) : Package :=
  mkPackage (Name pkg) (Version pkg) (InstallReason pkg) (Dependencies pkg) requiredBy.

(* one iteration of `for scanner.Scan()`, on the record being filled and
   the current section *)
Definition scanLine (st : Package * string) (text : string) : Package * string :=
  let line := TrimSpace text in
  if HasPrefix line "%" && HasSuffix line "%" then (st.1, Trim line "%")
  else if String.eqb line "" then st
  else if String.eqb st.2 "NAME" then (setName st.1 line, st.2)
  else if String.eqb st.2 "VERSION" then (setVersion st.1 line, st.2)
  else if String.eqb st.2 "REASON" then
    (if String.eqb line "1" then setInstallReason st.1 InstalledAsDependency else st.1,
     st.2)
  else if String.eqb st.2 "DEPENDS" then (appendDependency st.1 line, st.2)
  else st.

(* the two results, a Package pointer and an error: (nil, err) when the
   file cannot be opened, (pkg, scanner.Err()) otherwise *)
Definition parseDescFile (descFile : DescFile) : option Package * option error :=
  match descFile with
  | Unreadable err => (None, Some err)
  | Readable lines scanErr =>
      let pkg := mkPackage "" "" ExplicitlyInstalled [] [] in
      (Some (foldl scanLine (pkg, "") lines).1, scanErr)
  end.

(* the body of the loop of loadAllPackages *)
Definition loadEntry (packages : gmap string Package) (entry : DirEntry)
  : gmap string Package :=
  if negb (IsDir entry) then packages
  else
    match parseDescFile (desc entry) with
    | (Some pkg, None) => <[Name pkg := pkg]> packages
    | _ => packages
    end.

(* [store] is the result of os.ReadDir(pacmanLocalDBPath) *)
Definition loadAllPackages (store : list DirEntry + error) : PackageCache + error :=
  match store with
  | inr err => inr err
  | inl entries => inl (mkCache (foldl loadEntry ∅ entries))
  end.

End Loading.

(* the entries loadAllPackages stores: directories whose desc file is
   parsed without error *)
Definition parsesTo (TrimSpace : string -> string) (entry : DirEntry) (pkg : Package)
  : Prop :=
  IsDir entry = true /\ parseDescFile TrimSpace (desc entry) = (Some pkg, None).

(* getPackageInfo assigns pkg.RequiredBy through the pointer stored in the
   cache: the cache after the call is returned with the result. *)
Definition getPackageInfo (pkgName : string) (cache : PackageCache)
           (entries : list (string * Package))
  : option (PackageCache * (Package + error)) :=
  match packages cache !! pkgName with
  | None => Some (cache, inr ("package not found: " +:+ pkgName))
  | Some pkg =>
      match findRequiredBy pkgName entries with
      | Panic => Panic
      | Some requiredBy =>
          let pkg' := setRequiredBy pkg requiredBy in
          Some (mkCache (<[pkgName := pkg']> (packages cache)), inl pkg')
      end
  end.

(* main, from the loaded cache to the call of displayPackageInfo: the two
   loops over cache.packages yield [entries1] and [entries2].  The result
   carries the cache as the query leaves it. *)
Definition runQuery (fuel : nat) (pkgName : string) (cache : PackageCache)
           (entries1 entries2 : list (string * Package))
  : Run (PackageCache * (Package * list InstallChain + error)) :=
  match getPackageInfo pkgName cache entries1 with
  | Panic => Panicked
  | Some (cache', inr err) => Done (cache', inr err)
  | Some (cache', inl pkg) =>
      match findInstallationChains fuel pkgName cache' entries2 with
      | Done chains => Done (cache', inl (pkg, chains))
      | Panicked => Panicked
      | FuelExhausted => FuelExhausted
      end
  end.

(* --------------------------------------------------------------------- *)
(* Reading the loops as lists                                            *)
(* --------------------------------------------------------------------- *)

(* the names [pkg] adds under key [d]: one for every dependency of pkg
   whose cleaned name is d *)
Definition contributes (d : string) (pkg : Package) : list string :=
  Dependencies pkg ≫= (λ dep,
    if decide (cleanDependencyName dep = Some d) then [Name pkg] else []).

(* the dependents of [d], in the order of [entries] *)
Definition dependentsOf (d : string) (entries : list (string * Package)) : list string :=
  entries ≫= (λ entry, contributes d entry.2).

(* every dependency specifier of every record has a name to extract *)
Definition cleanable (dep : string) : Prop := is_Some (cleanDependencyName dep).

Definition allCleanable (entries : list (string * Package)) : Prop :=
  Forall (λ entry, Forall cleanable (Dependencies entry.2)) entries.

(* the keys that read true in the visited map *)
Definition visitedSet (visited : gmap string bool) : gset string :=
  dom (filter (λ kv, kv.2 = true) visited).

(* The chains one call of dfsBackwards appends, target first, as a
   function of the set [onPath] of packages marked visited at the call. *)
Fixpoint chainsFrom (fuel : nat) (cache : PackageCache)
         (reverseDeps : gmap string (list string)) (onPath : gset string)
         (currentPkg : string) (path : list string) : list InstallChain :=
  match fuel with
  | 0 => []
  | S fuel' =>
      if decide (currentPkg ∈ onPath) then []
      else if isExplicit cache currentPkg then [path]
      else
        (reverseDeps !!! currentPkg) ≫= (λ dependentPkg,
          chainsFrom fuel' cache reverseDeps ({[currentPkg]} ∪ onPath)
                     dependentPkg (path ++ [dependentPkg]))
  end.

(* every package the traversal can reach: the target and the names the
   reverse dependency map stores *)
Definition reachable (targetPkg : string) (entries : list (string * Package))
  : gset string :=
  {[targetPkg]} ∪ list_to_set ((λ entry, Name entry.2) <$> entries).

(* the loop of dfsBackwards over reverseDeps[currentPkg] *)
Definition explore (cache : PackageCache) (reverseDeps : gmap string (list string))
           (fuel : nat) (path : list string) (dependents : list string)
           (st : gmap string bool * list InstallChain)
  : option (gmap string bool * list InstallChain) :=
  forEach (fun dependentPkg st' =>
             dfsBackwards fuel cache reverseDeps dependentPkg
                          (path ++ [dependentPkg]) st')
          dependents st.

(* what a returning call of dfsBackwards does to the state: the visited
   map reads as before, and the chains found are appended *)
Definition returnsAs (cache : PackageCache) (reverseDeps : gmap string (list string))
           (fuel : nat) (currentPkg : string) (path : list string)
           (st st' : gmap string bool * list InstallChain) : Prop :=
  visitedSet st'.1 = visitedSet st.1
  /\ st'.2 = st.2 ++ chainsFrom fuel cache reverseDeps (visitedSet st.1) currentPkg path.

(* --------------------------------------------------------------------- *)
(* Scenarios                                                             *)
(* --------------------------------------------------------------------- *)

Definition explicitPkg (name : string) (deps : list string) : Package :=
  mkPackage name "1.0-1" ExplicitlyInstalled deps [].

Definition dependencyPkg (name : string) (deps : list string) : Package :=
  mkPackage name "1.0-1" InstalledAsDependency deps [].

Definition cacheOf (pkgs : list Package) : PackageCache :=
  mkCache (list_to_map ((λ pkg, (Name pkg, pkg)) <$> pkgs)).

(* a single explicitly installed package *)
Definition onlyA : PackageCache := cacheOf [explicitPkg "A" []].

(* A explicit; B depends on A; C depends on B *)
Definition dependsUpwards : PackageCache :=
  cacheOf [explicitPkg "A" []; dependencyPkg "B" ["A"]; dependencyPkg "C" ["B"]].

(* A explicit and depends on B; B depends on C *)
Definition pulledIn : PackageCache :=
  cacheOf [explicitPkg "A" ["B"]; dependencyPkg "B" ["C"]; dependencyPkg "C" []].

(* M depends on N and N depends on M, neither explicit *)
Definition cyclicMN : PackageCache :=
  cacheOf [dependencyPkg "M" ["N"]; dependencyPkg "N" ["M"]].

(* X and Y explicit, both depend on Z *)
Definition diamond : PackageCache :=
  cacheOf [explicitPkg "X" ["Z>=2"]; explicitPkg "Y" ["Z"]; dependencyPkg "Z" []].

(* the cycle of [cyclicMN] below an explicit root R that depends on M *)
Definition rootedCycle : PackageCache :=
  cacheOf [explicitPkg "R" ["M"]; dependencyPkg "M" ["N"]; dependencyPkg "N" ["M"]].

(* a directory of the local database whose desc file has no %NAME% section *)
Definition namelessEntry : DirEntry :=
  mkEntry "broken-1.0-1" true
          (Readable ["%VERSION%"; "1.0-1"; ""; "%DEPENDS%"; "glibc"] None).

(* a directory with a well-formed desc file *)
Definition bashEntry : DirEntry :=
  mkEntry "bash-5.2-1" true
          (Readable ["%NAME%"; "bash"; ""; "%VERSION%"; "5.2-1"; "";
                     "%REASON%"; "1"; ""; "%DEPENDS%"; "readline>=8.0"; "glibc"]
                    None).

(* the index loaded from these two directories *)
Definition loadedSample : PackageCache :=
  mkCache {[ "bash" := mkPackage "bash" "5.2-1" InstalledAsDependency
                                 ["readline>=8.0"; "glibc"] [];
             "" := mkPackage "" "1.0-1" ExplicitlyInstalled ["glibc"] [] ]}.

Definition dependencyPkgRequiredBy (name : string) (deps requiredBy : list string)
  : Package :=
  mkPackage name "1.0-1" InstalledAsDependency deps requiredBy.

(* [pulledIn] after getPackageInfo("B") *)
Definition queriedB : PackageCache :=
  mkCache (<["B" := dependencyPkgRequiredBy "B" ["C"] ["A"]]> (packages pulledIn)).

(* a directory whose desc file lists the dependency "=" *)
Definition malformedEntry : DirEntry :=
  mkEntry "p-1.0-1" true (Readable ["%NAME%"; "p"; ""; "%DEPENDS%"; "="] None).

(* the index loaded from it *)
Definition malformedIndex : PackageCache :=
  mkCache {[ "p" := mkPackage "p" "" ExplicitlyInstalled ["="] [] ]}.

(* --------------------------------------------------------------------- *)
(* Fields of a specifier                                                 *)
(* --------------------------------------------------------------------- *)

(* every character of [s] satisfies [p] *)
Fixpoint stringForall (p : ascii -> bool) (s : string) : bool :=
  match s with
  | EmptyString => true
  | String r s' => p r && stringForall p s'
  end.

(* [s] without its leading characters satisfying [sep] *)
Fixpoint dropLeading (sep : ascii -> bool) (s : string) : string :=
  match s with
  | EmptyString => EmptyString
  | String r s' => if sep r then dropLeading sep s' else s
  end.

(* the first maximal run of characters of [s] not satisfying [sep] *)
Definition firstField (sep : ascii -> bool) (s : string) : string :=
  substringBeforeFirst sep (dropLeading sep s).

(* a character of a package name *)
Definition isNameChar (r : ascii) : bool := negb (isSeparator r).

(* [pkg] lists a dependency whose cleaned name is [pkgName] *)
Definition dependsOn (pkgName : string) (pkg : Package) : Prop :=
  Exists (λ dep, cleanDependencyName dep = Some pkgName) (Dependencies pkg).

(* the invariant loadAllPackages establishes: a record is stored under
   its own Name *)
Definition keyedByName (cache : PackageCache) : Prop :=
  forall key pkg, packages cache !! key = Some pkg -> Name pkg = key.

(* --------------------------------------------------------------------- *)
(* Trails and installation chains                                        *)
(* --------------------------------------------------------------------- *)

(* A trail of the traversal, target first: [currentPkg] followed by
   [rest].  The traversal enters currentPkg (it is not marked visited),
   ends there when it is explicitly installed and otherwise goes on to one
   of its dependents. *)
Fixpoint validTrail (cache : PackageCache) (reverseDeps : gmap string (list string))
         (onPath : gset string) (currentPkg : string) (rest : list string) : Prop :=
  (currentPkg ∉ onPath)
  /\ match rest with
     | [] => isExplicit cache currentPkg = true
     | dependentPkg :: rest' =>
         isExplicit cache currentPkg = false
         /\ dependentPkg ∈ reverseDeps !!! currentPkg
         /\ validTrail cache reverseDeps ({[currentPkg]} ∪ onPath) dependentPkg rest'
     end.

(* every package of the trail is followed by one of its dependents *)
Definition follows (reverseDeps : gmap string (list string)) (trail : list string)
  : Prop :=
  forall before x y after,
    trail = before ++ x :: y :: after -> y ∈ reverseDeps !!! x.

(* the trail ends at its only explicitly installed package *)
Definition endsAtRoot (cache : PackageCache) (trail : list string) : Prop :=
  exists front root,
    trail = front ++ [root]
    /\ isExplicit cache root = true
    /\ Forall (λ p, isExplicit cache p = false) front.

(* An installation chain of [targetPkg], root first: a simple path that
   starts at an explicitly installed package, holds no other explicitly
   installed package, ends at the target, and in which every package
   lists the next one among its dependencies. *)
Definition isInstallChain (cache : PackageCache) (entries : list (string * Package))
           (targetPkg : string) (chain : list string) : Prop :=
  NoDup chain
  /\ last chain = Some targetPkg
  /\ (exists root tail,
        chain = root :: tail
        /\ isExplicit cache root = true
        /\ Forall (λ p, isExplicit cache p = false) tail)
  /\ (forall before a b after,
        chain = before ++ a :: b :: after -> a ∈ dependentsOf b entries).

(* --------------------------------------------------------------------- *)
(* getExplicitlyInstalledPackages                                        *)
(* --------------------------------------------------------------------- *)

(* the loop appends pkg.Name for every record whose InstallReason is
   "Explicitly installed" *)
Definition getExplicitlyInstalledPackages (entries : list (string * Package))
  : list string :=
  foldl (fun explicitPkgs entry =>
           if String.eqb (InstallReason entry.2) ExplicitlyInstalled
           then explicitPkgs ++ [Name entry.2]
           else explicitPkgs)
        [] entries.

(* --------------------------------------------------------------------- *)
(* Shapes of records and of desc files                                   *)
(* --------------------------------------------------------------------- *)

(* what parseDescFile guarantees of the record it fills *)
Definition freshlyParsed (pkg : Package) : Prop :=
  (InstallReason pkg = ExplicitlyInstalled
   \/ InstallReason pkg = InstalledAsDependency)
  /\ RequiredBy pkg = []
  /\ Forall (λ dep, dep <> "") (Dependencies pkg).

(* the trimmed line is a section header: it starts and ends with '%' *)
Definition isHeader (line : string) : bool :=
  GoStrings.HasPrefix line "%" && GoStrings.HasSuffix line "%".

(* the record parseDescFile starts from *)
Definition emptyRecord : Package := mkPackage "" "" ExplicitlyInstalled [] [].

(* two entries that the traversal cannot tell apart: same Name and same
   Dependencies *)
Definition sameEdges (entry1 entry2 : string * Package) : Prop :=
  Name entry1.2 = Name entry2.2 /\ Dependencies entry1.2 = Dependencies entry2.2.

(* an entry loadAllPackages stores: a directory whose desc file is parsed
   without error *)
Definition isLoadable (TrimSpace : string -> string) (entry : DirEntry) : Prop :=
  IsDir entry = true /\ (parseDescFile TrimSpace (desc entry)).2 = None.

(* the record being filled by parseDescFile: every field comes from a
   trimmed line of [lines] or keeps its initial value *)
Definition filledFrom (TrimSpace : string -> string) (lines : list string)
           (pkg : Package) : Prop :=
  freshlyParsed pkg
  /\ Forall (λ dep, exists text, text ∈ lines /\ dep = TrimSpace text) (Dependencies pkg)
  /\ (Name pkg = "" \/ exists text, text ∈ lines /\ Name pkg = TrimSpace text).

(* a second directory holding a record named bash *)
Definition bashUpgrade : DirEntry :=
  mkEntry "bash-5.3-1" true (Readable ["%NAME%"; "bash"; "%VERSION%"; "5.3-1"] None).

(* --------------------------------------------------------------------- *)
(* displayPackageInfo                                                    *)
(* --------------------------------------------------------------------- *)
(* The output is modelled as the sequence of strings written to standard
   output, one per call of fmt.Printf or fmt.Println, in order. *)

(* the line feed written for \n *)
Definition newline : string := String "010" EmptyString.

(* strings.Repeat(s, count) *)
Fixpoint Repeat (s : string) (count : nat) : string :=
  match count with
  | 0 => EmptyString
  | S count' => s +:+ Repeat s count'
  end.

(* the body of `for j := 0; j < len(chain); j++`: chain[j] is in range *)
Definition chainLine (chain : list string) (j : nat) : string :=
  let indent := Repeat "  " j in
  if Nat.eqb j 0 then indent +:+ chain !!! j +:+ " (explicitly installed)" +:+ newline
  else if Nat.eqb j (length chain - 1)
       then indent +:+ chain !!! j +:+ " (target package)" +:+ newline
       else indent +:+ chain !!! j +:+ newline.

(* the body of `for i := 0; i < displayCount; i++`: chains[i] is in range;
   %d writes i+1 in decimal *)
Definition chainBlock (chains : list InstallChain) (i : nat) : list string :=
  let chain := chains !!! i in
  ["Chain " +:+ pretty (i + 1) +:+ ":" +:+ newline]
  ++ (chainLine chain <$> seq 0 (length chain))
  ++ [newline].

Definition moreChains (count : nat) : string :=
  "... and " +:+ pretty count +:+ " more chain(s)" +:+ newline +:+ newline.

Definition chainsIntro : string :=
  newline +:+ "Installation chains leading to this package:" +:+ newline.

Definition noChains : string :=
  "No installation chains found for this package (possible orphan package)."
  +:+ newline.

(* the branch `if len(chains) > 0 ... else ...` *)
Definition displayChains (chains : list InstallChain) : list string :=
  if Nat.ltb 0 (length chains) then
    let displayCount := if Nat.ltb 6 (length chains) then 6 else length chains in
    [chainsIntro]
    ++ (seq 0 displayCount ≫= chainBlock chains)
    ++ (if Nat.ltb 5 (length chains) then [moreChains (length chains - 5)] else [])
  else [noChains].

Definition heading (pkg : Package) : list string :=
  [newline +:+ "Package: " +:+ Name pkg +:+ " (" +:+ Version pkg +:+ ")" +:+ newline;
   "=========================================" +:+ newline +:+ newline].

Definition explicitReason : string :=
  "This package was EXPLICITLY installed by the user." +:+ newline.

Definition dependencyReason : string :=
  "This package was INSTALLED AS A DEPENDENCY for another package." +:+ newline.

Definition separator : string :=
  newline +:+ "#########################################" +:+ newline.

(* `if len(items) > 0 { Printf(title); for _, item := range items {...} }` *)
Definition listing (title : string) (items : list string) : list string :=
  if Nat.ltb 0 (length items)
  then [title] ++ ((λ item, " - " +:+ item +:+ newline) <$> items)
  else [].

(* from the first separator to the closing line *)
Definition sections (pkg : Package) : list string :=
  [separator]
  ++ listing (newline +:+ "This package DEPENDS ON the following packages:" +:+ newline)
             (Dependencies pkg)
  ++ [separator]
  ++ listing (newline +:+ "The following packages REQUIRE THIS PACKAGE:" +:+ newline)
             (RequiredBy pkg)
  ++ [newline +:+ "=========================================" +:+ newline].

Definition displayPackageInfo (pkg : Package) (chains : list InstallChain)
  : list string :=
  heading pkg
  ++ (if String.eqb (InstallReason pkg) ExplicitlyInstalled
      then [explicitReason]
      else [dependencyReason] ++ displayChains chains)
  ++ sections pkg.

(* The rendering of the chains written per element rather than per index:
   the lines of the chain met at position [i] *)
Definition renderLine (len j : nat) (name : string) : string :=
  let indent := Repeat "  " j in
  if Nat.eqb j 0 then indent +:+ name +:+ " (explicitly installed)" +:+ newline
  else if Nat.eqb j (len - 1) then indent +:+ name +:+ " (target package)" +:+ newline
       else indent +:+ name +:+ newline.

Definition renderChain (i : nat) (chain : InstallChain) : list string :=
  ["Chain " +:+ pretty (i + 1) +:+ ":" +:+ newline]
  ++ imap (renderLine (length chain)) chain
  ++ [newline].

(* --------------------------------------------------------------------- *)
(* findPackageDir (the lookup of the versions without a cache)           *)
(* --------------------------------------------------------------------- *)

Definition pacmanLocalDBPath : string := "/var/lib/pacman/local/".

(* entry.IsDir() && strings.HasPrefix(entry.Name(), pkgName+"-") *)
Definition isPackageDir (pkgName : string) (entry : DirEntry) : bool :=
  IsDir entry && GoStrings.HasPrefix (entryName entry) (pkgName +:+ "-").

(* filepath.Join(pacmanLocalDBPath, entry.Name()): a name returned by
   os.ReadDir holds no separator and is neither "." nor "..", so the
   cleaned join is the path followed by the name *)
Definition packageDirPath (entry : DirEntry) : string :=
  pacmanLocalDBPath +:+ entryName entry.

(* the loop returns at the first entry that passes the test *)
Fixpoint findPackageDir_range (pkgName : string) (entries : list DirEntry)
  : option string :=
  match entries with
  | [] => None
  | entry :: entries' =>
      if isPackageDir pkgName entry then Some (packageDirPath entry)
      else findPackageDir_range pkgName entries'
  end.

(* [store] is the result of os.ReadDir(pacmanLocalDBPath) *)
Definition findPackageDir (pkgName : string) (store : list DirEntry + error)
  : string + error :=
  match store with
  | inr err => inr err
  | inl entries =>
      match findPackageDir_range pkgName entries with
      | Some dir => inl dir
      | None => inr ("package directory not found for package: " +:+ pkgName)
      end
  end.

(* the local database with gcc-libs installed and gcc not *)
Definition onlyGccLibs : list DirEntry :=
  [mkEntry "ALPM_DB_VERSION" false (Unreadable "not a directory");
   mkEntry "gcc-libs-13.2.1-1" true (Readable ["%NAME%"; "gcc-libs"] None)].

(* no record lists two specifiers that normalise to the same name *)
Definition distinctDependencies (entries : list (string * Package)) : Prop :=
  Forall (λ entry, NoDup (omap cleanDependencyName (Dependencies entry.2))) entries.

(* Where findRequiredBy panics in the specifiers of one record: at a
   specifier without a name, reached before any specifier normalising to
   [pkgName] *)
Definition panicsBeforeMatch (pkgName : string) (deps : list string) : Prop :=
  exists before dep after,
    deps = before ++ dep :: after
    /\ cleanDependencyName dep = Panic
    /\ Forall (λ d, exists depName,
                 cleanDependencyName d = Some depName /\ depName <> pkgName) before.


(* ===================================================================== *)
(* Properties                                                            *)
(* ===================================================================== *)

(* --------------------------------------------------------------------- *)
(* Dependency-name normalisation                                         *)
(* --------------------------------------------------------------------- *)

Section CleanDependencyName.

Import GoStrings.

Lemma append_cons (a : ascii) (s t : string) :
  String a s +:+ t = String a (s +:+ t).
Proof. reflexivity. Qed.

Lemma append_empty_r (s : string) : s +:+ "" = s.
Proof. induction s as [|a s IH]; [done|]. by rewrite append_cons, IH. Qed.

Lemma append_snoc (s t : string) (r : ascii) :
  (s +:+ String r "") +:+ t = s +:+ String r t.
Proof. induction s as [|a s IH]; [done|]. by rewrite !append_cons, IH. Qed.

Lemma FieldsFunc_from_open (f : ascii -> bool) (s field : string) :
  hd_error (FieldsFunc_from f (Some field) s)
  = Some (field +:+ substringBeforeFirst f s).
Proof.
  revert field. induction s as [|r s IH]; intros field; simpl.
  - by rewrite append_empty_r.
  - destruct (f r); simpl.
    + by rewrite append_empty_r.
    + by rewrite IH, append_snoc.
Qed.

Lemma cleanDependencyName_hd (dep : string) :
  cleanDependencyName dep = hd_error (FieldsFunc dep isSeparator).
Proof. unfold cleanDependencyName. by destruct (FieldsFunc _ _). Qed.

Lemma cleanDependencyName_begins (dep : string) :
  beginsWithName dep = true ->
  cleanDependencyName dep = Some (substringBeforeFirst isSeparator dep).
Proof.
  rewrite cleanDependencyName_hd.
  destruct dep as [|r s]; simpl; [done|].
  unfold FieldsFunc; simpl.
  destruct (isSeparator r); simpl; [done|].
  intros _. by rewrite FieldsFunc_from_open.
Qed.

End CleanDependencyName.

(** C5 (as stated, refuted): on the specifier ">=1.0" cleanDependencyName
    does not return the substring before the first separator (which is
    empty): FieldsFunc skips the leading separators and the result is
    "1.0"; and on "libfoo" followed by a tab and "1.0" the tab is not a
    separator of the code. *)
Lemma cleanDependencyName_not_prefix :
  cleanDependencyName ">=1.0" = Some "1.0"
  /\ cleanDependencyName ">=1.0"
     <> Some (substringBeforeFirst isSpecSeparator ">=1.0")
  /\ cleanDependencyName ("libfoo" +:+ String "009"%char "1.0")
     <> Some (substringBeforeFirst isSpecSeparator ("libfoo" +:+ String "009"%char "1.0")).
Proof. repeat split; vm_compute; congruence. Qed.

(** C5 (amended): for every dependency specifier that begins with a
    character other than ' ', '<', '>', '=', cleanDependencyName returns
    the substring up to, not including, the first occurrence of ' ', '<',
    '>' or '='; "libfoo>=1.0", "libfoo<2.0", "libfoo=1.5" and "libfoo"
    all normalise to "libfoo". *)
Theorem cleanDependencyName_prefix :
  (forall dep : string,
      beginsWithName dep = true ->
      cleanDependencyName dep = Some (substringBeforeFirst isSeparator dep))
  /\ cleanDependencyName "libfoo>=1.0" = Some "libfoo"
  /\ cleanDependencyName "libfoo<2.0" = Some "libfoo"
  /\ cleanDependencyName "libfoo=1.5" = Some "libfoo"
  /\ cleanDependencyName "libfoo" = Some "libfoo".
Proof.
  split; [exact cleanDependencyName_begins|].
  repeat split; reflexivity.
Qed.

Lemma cleanDependencyName_prefix_witness :
  beginsWithName "glibc>=2.38 " = true
  /\ cleanDependencyName "glibc>=2.38 "
     = Some (substringBeforeFirst isSeparator "glibc>=2.38 ").
Proof.
  split; [reflexivity|].
  apply (proj1 cleanDependencyName_prefix). reflexivity.
Defined.

(** C10 (the code panics where the claim promises a result): the empty
    specifier and specifiers made of separators only have no field, so
    indexing element 0 of the split result panics.  A desc file whose
    %DEPENDS% section holds the line "=" is parsed without error and its
    record is indexed; buildReverseDependencyMap, findRequiredBy and with
    them getPackageInfo and findInstallationChains then panic. *)
Theorem cleanDependencyName_panics :
  cleanDependencyName "" = Panic
  /\ cleanDependencyName "=" = Panic
  /\ cleanDependencyName " <>= " = Panic
  /\ loadAllPackages GoStrings.TrimSpaceASCII (inl [malformedEntry]) = inl malformedIndex
  /\ buildReverseDependencyMap (map_to_list (packages malformedIndex)) = Panic
  /\ findRequiredBy "q" (map_to_list (packages malformedIndex)) = Panic
  /\ getPackageInfo "p" malformedIndex (map_to_list (packages malformedIndex)) = Panic
  /\ findInstallationChains 3 "p" malformedIndex (map_to_list (packages malformedIndex))
     = Panicked.
Proof. repeat split; reflexivity. Qed.

(* --------------------------------------------------------------------- *)
(* Loops                                                                 *)
(* --------------------------------------------------------------------- *)

Section ForEach.

Context {A S : Type}.
Implicit Types (body : A -> S -> option S) (l : list A) (s : S).

Lemma forEach_app body l1 l2 s :
  forEach body (l1 ++ l2) s = forEach body l1 s ≫= forEach body l2.
Proof.
  revert s. induction l1 as [|x l1 IH]; intros s; simpl; [done|].
  destruct (body x s); simpl; [apply IH|done].
Qed.

(* an invariant kept by the body is kept by the loop *)
Lemma forEach_invariant (I : S -> Prop) body l s s' :
  (forall x t t', x ∈ l -> I t -> body x t = Some t' -> I t') ->
  I s -> forEach body l s = Some s' -> I s'.
Proof.
  revert s. induction l as [|x l IH]; intros s Hbody Hs; simpl.
  - by intros [= <-].
  - destruct (body x s) as [t|] eqn:Hx; [|done].
    apply IH.
    + intros y u u' Hy. apply Hbody. by right.
    + eapply Hbody; [left|exact Hs|exact Hx].
Qed.

(* a body that refines another one runs the same loop *)
Lemma forEach_refines body1 body2 l s s' :
  (forall x t t', x ∈ l -> body1 x t = Some t' -> body2 x t = Some t') ->
  forEach body1 l s = Some s' -> forEach body2 l s = Some s'.
Proof.
  revert s. induction l as [|x l IH]; intros s Hbody; simpl; [done|].
  destruct (body1 x s) as [t|] eqn:Hx; [|done].
  rewrite (Hbody x s t); [|left|done].
  apply IH. intros y u u' Hy. apply Hbody. by right.
Qed.

End ForEach.

(* --------------------------------------------------------------------- *)
(* The reverse dependency map and findRequiredBy                         *)
(* --------------------------------------------------------------------- *)

Section ReverseDependencies.

Implicit Types (pkg : Package) (deps requiredBy : list string)
         (entries : list (string * Package))
         (reverseDeps : gmap string (list string)).

Lemma addDependent_lookup pkg dep reverseDeps reverseDeps' d :
  addDependent pkg dep reverseDeps = Some reverseDeps' ->
  cleanable dep
  /\ reverseDeps' !!! d
     = reverseDeps !!! d
       ++ (if decide (cleanDependencyName dep = Some d) then [Name pkg] else []).
Proof.
  unfold addDependent, cleanable.
  destruct (cleanDependencyName dep) as [depName|]; [|done].
  intros [= <-]. split; [by eexists|].
  destruct (decide (depName = d)) as [->|Hne].
  - rewrite lookup_total_insert_eq. by rewrite decide_True.
  - rewrite lookup_total_insert_ne by done.
    rewrite decide_False by congruence. by rewrite app_nil_r.
Qed.

Lemma addDependents_lookup pkg deps reverseDeps reverseDeps' d :
  forEach (addDependent pkg) deps reverseDeps = Some reverseDeps' ->
  Forall cleanable deps
  /\ reverseDeps' !!! d
     = reverseDeps !!! d
       ++ (deps ≫= (λ dep,
             if decide (cleanDependencyName dep = Some d) then [Name pkg] else [])).
Proof.
  revert reverseDeps. induction deps as [|dep deps IH]; intros reverseDeps; simpl.
  - intros [= <-]. by rewrite app_nil_r.
  - destruct (addDependent pkg dep reverseDeps) as [rd1|] eqn:Hdep; [|done].
    intros Hrest. apply (addDependent_lookup _ _ _ _ d) in Hdep as [Hc Hd].
    apply IH in Hrest as [Hcs Hds]. split; [by constructor|].
    by rewrite Hds, Hd, <-(assoc_L (++)).
Qed.

Lemma addDependents_total pkg deps reverseDeps :
  Forall cleanable deps -> is_Some (forEach (addDependent pkg) deps reverseDeps).
Proof.
  intros Hdeps. revert reverseDeps.
  induction Hdeps as [|dep deps [depName Hdep] _ IH]; intros reverseDeps; simpl.
  - by eexists.
  - unfold addDependent at 1. rewrite Hdep. apply IH.
Qed.

Lemma build_from_lookup entries reverseDeps reverseDeps' d :
  forEach (fun entry rd => forEach (addDependent entry.2) (Dependencies entry.2) rd)
          entries reverseDeps = Some reverseDeps' ->
  allCleanable entries
  /\ reverseDeps' !!! d = reverseDeps !!! d ++ dependentsOf d entries.
Proof.
  unfold allCleanable, dependentsOf.
  revert reverseDeps. induction entries as [|entry entries IH]; intros reverseDeps; simpl.
  - intros [= <-]. by rewrite app_nil_r.
  - destruct (forEach (addDependent entry.2) _ reverseDeps) as [rd1|] eqn:Hentry; [|done].
    intros Hrest. apply (addDependents_lookup _ _ _ _ d) in Hentry as [Hc Hd].
    apply IH in Hrest as [Hcs Hds]. split; [by constructor|].
    by rewrite Hds, Hd, <-(assoc_L (++)).
Qed.

(* what buildReverseDependencyMap stores under every key *)
Lemma buildReverseDependencyMap_lookup entries reverseDeps d :
  buildReverseDependencyMap entries = Some reverseDeps ->
  reverseDeps !!! d = dependentsOf d entries.
Proof.
  intros Hbuild. apply (build_from_lookup _ _ _ d) in Hbuild as [_ ->].
  by rewrite lookup_total_empty.
Qed.

Lemma buildReverseDependencyMap_cleanable entries reverseDeps :
  buildReverseDependencyMap entries = Some reverseDeps -> allCleanable entries.
Proof. intros Hbuild. by apply (build_from_lookup _ _ _ "") in Hbuild as [? _]. Qed.

(* it panics only on a specifier that has no name *)
Lemma buildReverseDependencyMap_total entries :
  allCleanable entries -> is_Some (buildReverseDependencyMap entries).
Proof.
  unfold buildReverseDependencyMap. generalize (∅ : gmap string (list string)).
  intros rd Hall. revert rd.
  induction Hall as [|entry entries Hentry _ IH]; intros rd; simpl.
  - by eexists.
  - destruct (addDependents_total entry.2 _ rd Hentry) as [rd1 ->]. apply IH.
Qed.

Lemma elem_of_contributes d pkg P :
  P ∈ contributes d pkg
  <-> P = Name pkg /\ exists dep, dep ∈ Dependencies pkg /\ cleanDependencyName dep = Some d.
Proof.
  unfold contributes. rewrite list_elem_of_bind. split.
  - intros (dep & HP & Hdep). case_decide; [|by apply not_elem_of_nil in HP].
    apply list_elem_of_singleton in HP. eauto.
  - intros (-> & dep & Hdep & Hclean). exists dep. split; [|done].
    rewrite decide_True by done. by apply list_elem_of_singleton.
Qed.

Lemma elem_of_dependentsOf d entries P :
  P ∈ dependentsOf d entries
  <-> exists entry, entry ∈ entries /\ P = Name entry.2
        /\ exists dep, dep ∈ Dependencies entry.2 /\ cleanDependencyName dep = Some d.
Proof.
  unfold dependentsOf. rewrite list_elem_of_bind.
  by setoid_rewrite elem_of_contributes; naive_solver.
Qed.

Lemma dependentsOf_Permutation d entries1 entries2 :
  entries1 ≡ₚ entries2 -> dependentsOf d entries1 ≡ₚ dependentsOf d entries2.
Proof. unfold dependentsOf. by intros ->. Qed.

Lemma allCleanable_Permutation entries1 entries2 :
  entries1 ≡ₚ entries2 -> allCleanable entries1 -> allCleanable entries2.
Proof. unfold allCleanable. by intros ->. Qed.

(* the inner loop of findRequiredBy adds pkg.Name exactly when some
   dependency of pkg cleans to pkgName *)
Lemma findRequiredBy_deps_spec pkgName pkg deps requiredBy requiredBy' :
  findRequiredBy_deps pkgName pkg deps requiredBy = Some requiredBy' ->
  exists added,
    requiredBy' = requiredBy ++ added
    /\ forall P, P ∈ added
         <-> P = Name pkg
             /\ exists dep, dep ∈ deps /\ cleanDependencyName dep = Some pkgName.
Proof.
  induction deps as [|dep deps IH]; simpl.
  - intros [= <-]. exists []. split; [by rewrite app_nil_r|].
    intros P. split; [by intros ?%not_elem_of_nil|].
    by intros (_ & dep & ?%not_elem_of_nil & _).
  - destruct (cleanDependencyName dep) as [depName|] eqn:Hclean; [|done].
    destruct (String.eqb_spec depName pkgName) as [->|Hne].
    + intros [= <-]. exists [Name pkg]. split; [done|].
      intros P. rewrite list_elem_of_singleton. split; [|naive_solver].
      intros ->. split; [done|]. exists dep. split; [left|done].
    + intros (added & -> & Hadded)%IH. exists added. split; [done|].
      intros P. rewrite Hadded. split.
      * intros (-> & dep' & Hin & Hdep'). split; [done|]. exists dep'.
        split; [by right|done].
      * intros (-> & dep' & Hin & Hdep'). split; [done|]. exists dep'.
        split; [|done]. apply elem_of_cons in Hin as [->|Hin]; [|done].
        congruence.
Qed.

Lemma findRequiredBy_deps_total pkgName pkg deps requiredBy :
  Forall cleanable deps -> is_Some (findRequiredBy_deps pkgName pkg deps requiredBy).
Proof.
  induction 1 as [|dep deps [depName Hdep] _ IH]; simpl; [by eexists|].
  rewrite Hdep. destruct (String.eqb depName pkgName); [by eexists|done].
Qed.

Lemma findRequiredBy_from_spec pkgName entries requiredBy requiredBy' :
  forEach (fun entry rb =>
             findRequiredBy_deps pkgName entry.2 (Dependencies entry.2) rb)
          entries requiredBy = Some requiredBy' ->
  exists added,
    requiredBy' = requiredBy ++ added
    /\ forall P, P ∈ added <-> P ∈ dependentsOf pkgName entries.
Proof.
  revert requiredBy. induction entries as [|entry entries IH]; intros requiredBy; simpl.
  - intros [= <-]. exists []. by rewrite app_nil_r.
  - destruct (findRequiredBy_deps pkgName entry.2 _ requiredBy) as [rb1|] eqn:Hentry;
      [|done].
    apply findRequiredBy_deps_spec in Hentry as (added1 & -> & Hadded1).
    intros (added & -> & Hadded)%IH.
    exists (added1 ++ added). split; [by rewrite (assoc_L (++))|].
    intros P. unfold dependentsOf. simpl.
    rewrite !elem_of_app, Hadded, Hadded1, elem_of_contributes. done.
Qed.

(* the names findRequiredBy returns *)
Lemma findRequiredBy_spec pkgName entries requiredBy :
  findRequiredBy pkgName entries = Some requiredBy ->
  forall P, P ∈ requiredBy <-> P ∈ dependentsOf pkgName entries.
Proof. by intros (added & -> & Hadded)%findRequiredBy_from_spec. Qed.

Lemma findRequiredBy_total pkgName entries :
  allCleanable entries -> is_Some (findRequiredBy pkgName entries).
Proof.
  unfold findRequiredBy. generalize (@nil string). intros rb Hall. revert rb.
  induction Hall as [|entry entries Hentry _ IH]; intros rb; simpl; [by eexists|].
  destruct (findRequiredBy_deps_total pkgName entry.2 _ rb Hentry) as [rb1 ->].
  apply IH.
Qed.

End ReverseDependencies.




(* --------------------------------------------------------------------- *)
(* The visited map                                                       *)
(* --------------------------------------------------------------------- *)

Section Visited.

Implicit Types (visited : gmap string bool) (k : string).

Lemma elem_of_visitedSet visited k :
  k ∈ visitedSet visited <-> isVisited visited k = true.
Proof.
  unfold visitedSet, isVisited. rewrite elem_of_dom. split.
  - intros [b [Hk Hb]%map_lookup_filter_Some]. simpl in Hb. by rewrite Hk, Hb.
  - destruct (visited !! k) as [b|] eqn:Hk; simpl; [|done].
    intros ->. exists true. by apply map_lookup_filter_Some.
Qed.

Lemma not_elem_of_visitedSet visited k :
  k ∉ visitedSet visited <-> isVisited visited k = false.
Proof. rewrite elem_of_visitedSet. by destruct (isVisited visited k). Qed.

Lemma isVisited_insert visited k b k' :
  isVisited (<[k := b]> visited) k' = if decide (k = k') then b else isVisited visited k'.
Proof.
  unfold isVisited. case_decide as Hk.
  - subst. by rewrite lookup_insert_eq.
  - by rewrite lookup_insert_ne.
Qed.

Lemma visitedSet_empty : visitedSet ∅ = ∅.
Proof.
  apply set_eq. intros k. rewrite elem_of_visitedSet.
  unfold isVisited. rewrite lookup_empty. set_solver.
Qed.

(* visited[k] = true *)
Lemma visitedSet_mark visited k :
  visitedSet (<[k := true]> visited) = {[k]} ∪ visitedSet visited.
Proof.
  apply set_eq. intros k'.
  rewrite elem_of_union, elem_of_singleton, !elem_of_visitedSet, isVisited_insert.
  case_decide; naive_solver.
Qed.

(* the deferred visited[k] = false *)
Lemma visitedSet_unmark visited k :
  visitedSet (<[k := false]> visited) = visitedSet visited ∖ {[k]}.
Proof.
  apply set_eq. intros k'.
  rewrite elem_of_difference, elem_of_singleton, !elem_of_visitedSet, isVisited_insert.
  case_decide; naive_solver.
Qed.

Lemma visitedSet_mark_unmark visited visited' k :
  k ∉ visitedSet visited ->
  visitedSet visited' = {[k]} ∪ visitedSet visited ->
  visitedSet (<[k := false]> visited') = visitedSet visited.
Proof. intros Hk Heq. rewrite visitedSet_unmark, Heq. set_solver. Qed.

End Visited.

(* --------------------------------------------------------------------- *)
(* dfsBackwards                                                          *)
(* --------------------------------------------------------------------- *)

Section Traversal.

Variable cache : PackageCache.
Variable reverseDeps : gmap string (list string).

Implicit Types (fuel : nat) (currentPkg : string) (path : list string)
         (st : gmap string bool * list InstallChain).

Local Abbreviation explore := (explore cache reverseDeps).
Local Abbreviation returnsAs := (returnsAs cache reverseDeps).

Lemma dfsBackwards_unfold fuel currentPkg path st :
  dfsBackwards (S fuel) cache reverseDeps currentPkg path st
  = if isVisited st.1 currentPkg then Some st
    else if isExplicit cache currentPkg
         then Some (<[currentPkg := false]> (<[currentPkg := true]> st.1),
                    st.2 ++ [path])
         else (fun st' => (<[currentPkg := false]> st'.1, st'.2))
                <$> explore fuel path (reverseDeps !!! currentPkg)
                            (<[currentPkg := true]> st.1, st.2).
Proof. reflexivity. Qed.

Lemma explore_returnsAs fuel path dependents st st' :
  (forall currentPkg path' st1 st2,
      dfsBackwards fuel cache reverseDeps currentPkg path' st1 = Some st2 ->
      returnsAs fuel currentPkg path' st1 st2) ->
  explore fuel path dependents st = Some st' ->
  visitedSet st'.1 = visitedSet st.1
  /\ st'.2 = st.2 ++ (dependents ≫= (λ dependentPkg,
                        chainsFrom fuel cache reverseDeps (visitedSet st.1)
                                   dependentPkg (path ++ [dependentPkg]))).
Proof.
  intros Hcall. unfold explore. revert st.
  induction dependents as [|d dependents IH]; intros st; simpl.
  - intros [= <-]. by rewrite app_nil_r.
  - destruct (dfsBackwards fuel _ _ d _ st) as [st1|] eqn:Hd; [|done].
    apply Hcall in Hd as [Hv Hc].
    intros [Hv' Hc']%IH. split; [congruence|].
    by rewrite Hc', Hc, Hv, <-(assoc_L (++)).
Qed.

Lemma dfsBackwards_returnsAs fuel currentPkg path st st' :
  dfsBackwards fuel cache reverseDeps currentPkg path st = Some st' ->
  returnsAs fuel currentPkg path st st'.
Proof.
  revert currentPkg path st st'.
  induction fuel as [|fuel IH]; intros currentPkg path st st'; [done|].
  rewrite dfsBackwards_unfold. unfold returnsAs. simpl.
  destruct (isVisited st.1 currentPkg) eqn:Hvis.
  - intros [= <-]. apply elem_of_visitedSet in Hvis.
    rewrite decide_True by done. by rewrite app_nil_r.
  - apply not_elem_of_visitedSet in Hvis. rewrite decide_False by done.
    destruct (isExplicit cache currentPkg).
    + intros [= <-]. simpl. split; [|done].
      by apply visitedSet_mark_unmark; [|apply visitedSet_mark].
    + destruct (explore fuel path _ _) as [st1|] eqn:Hloop; [|done].
      intros [= <-]. simpl.
      apply (explore_returnsAs _ _ _ _ _ IH) in Hloop as [Hv Hc]. simpl in Hv, Hc.
      rewrite visitedSet_mark in Hv, Hc. split; [|done].
      apply visitedSet_mark_unmark; [done|]. by rewrite Hv.
Qed.

(* more fuel does not change the result of a call that returned *)
Lemma dfsBackwards_more_fuel fuel fuel' currentPkg path st st' :
  fuel <= fuel' ->
  dfsBackwards fuel cache reverseDeps currentPkg path st = Some st' ->
  dfsBackwards fuel' cache reverseDeps currentPkg path st = Some st'.
Proof.
  revert fuel' currentPkg path st st'.
  induction fuel as [|fuel IH]; intros fuel' currentPkg path st st' Hle; [done|].
  destruct fuel' as [|fuel']; [lia|].
  rewrite !dfsBackwards_unfold.
  destruct (isVisited st.1 currentPkg); [done|].
  destruct (isExplicit cache currentPkg); [done|].
  destruct (explore fuel path _ _) as [st1|] eqn:Hloop; [|done].
  intros [= <-]. unfold explore in *.
  erewrite forEach_refines; [done| |exact Hloop].
  intros d t t' _. apply IH. lia.
Qed.

(* Termination.  [universe] holds every name stored in the reverse
   dependency map; the packages of it not yet marked visited bound the
   depth of the recursion. *)
Variable universe : gset string.
Hypothesis dependents_in_universe :
  forall k d, d ∈ reverseDeps !!! k -> d ∈ universe.

Lemma explore_total fuel path dependents st :
  (forall currentPkg path' st1,
      visitedSet st1.1 = visitedSet st.1 ->
      currentPkg ∈ dependents ->
      is_Some (dfsBackwards fuel cache reverseDeps currentPkg path' st1)) ->
  is_Some (explore fuel path dependents st).
Proof.
  unfold explore. revert st.
  induction dependents as [|d dependents IH]; intros st Hcall; simpl; [by eexists|].
  destruct (Hcall d (path ++ [d]) st) as [st1 Hd]; [done|left|].
  rewrite Hd. apply dfsBackwards_returnsAs in Hd as [Hv _].
  apply IH. intros currentPkg path' st2 Hst2 Hin.
  apply Hcall; [congruence|by right].
Qed.

Lemma dfsBackwards_total fuel currentPkg path st :
  currentPkg ∈ universe ->
  size (universe ∖ visitedSet st.1) < fuel ->
  is_Some (dfsBackwards fuel cache reverseDeps currentPkg path st).
Proof.
  revert currentPkg path st.
  induction fuel as [|fuel IH]; intros currentPkg path st Hin Hsize; [lia|].
  rewrite dfsBackwards_unfold.
  destruct (isVisited st.1 currentPkg) eqn:Hvis; [by eexists|].
  destruct (isExplicit cache currentPkg); [by eexists|].
  apply fmap_is_Some, explore_total. simpl.
  intros d path' st1 Hst1 Hd. apply IH.
  - by eapply dependents_in_universe.
  - rewrite Hst1, visitedSet_mark.
    apply not_elem_of_visitedSet in Hvis.
    assert (universe ∖ ({[currentPkg]} ∪ visitedSet st.1)
            ⊂ universe ∖ visitedSet st.1) as Hsub%subset_size; [|lia].
    set_solver.
Qed.

End Traversal.

(* --------------------------------------------------------------------- *)
(* The chains of a traversal                                             *)
(* --------------------------------------------------------------------- *)

Section Chains.

Variable cache : PackageCache.

Implicit Types (reverseDeps : gmap string (list string)) (onPath : gset string)
         (path chain : list string).

(* a chain never holds a package twice: the packages before the current
   one are marked visited *)
Lemma chainsFrom_NoDup fuel reverseDeps onPath currentPkg path chain :
  NoDup path ->
  (forall k, k ∈ path -> k ∈ onPath) ->
  chain ∈ chainsFrom fuel cache reverseDeps onPath currentPkg (path ++ [currentPkg]) ->
  NoDup chain.
Proof.
  revert onPath currentPkg path.
  induction fuel as [|fuel IH]; intros onPath currentPkg path Hpath Hon; simpl.
  - by intros ?%not_elem_of_nil.
  - case_decide as Hcur; [by intros ?%not_elem_of_nil|].
    assert (NoDup (path ++ [currentPkg])) as Hpath'.
    { apply NoDup_app. split_and!; [done| |apply NoDup_singleton].
      intros k Hk ->%list_elem_of_singleton. by apply Hcur, Hon. }
    destruct (isExplicit cache currentPkg).
    + by intros ->%list_elem_of_singleton.
    + intros (d & Hchain & _)%list_elem_of_bind.
      apply IH in Hchain; [done..|].
      intros k [Hk| ->%list_elem_of_singleton]%elem_of_app; set_solver.
Qed.

(* every chain starts at the target and visits [currentPkg] last *)
Lemma chainsFrom_prefix fuel reverseDeps onPath currentPkg path chain :
  chain ∈ chainsFrom fuel cache reverseDeps onPath currentPkg path ->
  path `prefix_of` chain.
Proof.
  revert onPath currentPkg path.
  induction fuel as [|fuel IH]; intros onPath currentPkg path; simpl.
  - by intros ?%not_elem_of_nil.
  - case_decide; [by intros ?%not_elem_of_nil|].
    destruct (isExplicit cache currentPkg).
    + by intros ->%list_elem_of_singleton.
    + intros (d & Hchain%IH & _)%list_elem_of_bind.
      etrans; [|exact Hchain]. by apply prefix_app_r.
Qed.

Lemma bind_Permutation_ext {A B : Type} (f g : A -> list B) (l1 l2 : list A) :
  l1 ≡ₚ l2 -> (forall x, f x ≡ₚ g x) -> l1 ≫= f ≡ₚ l2 ≫= g.
Proof.
  intros Hl Hfg. rewrite <-Hl. clear l2 Hl.
  induction l1 as [|x l1 IH]; simpl; [done|]. by rewrite IH, Hfg.
Qed.

(* the order in which dependents are stored only permutes the chains *)
Lemma chainsFrom_Permutation fuel reverseDeps1 reverseDeps2 onPath currentPkg path :
  (forall k, reverseDeps1 !!! k ≡ₚ reverseDeps2 !!! k) ->
  chainsFrom fuel cache reverseDeps1 onPath currentPkg path
  ≡ₚ chainsFrom fuel cache reverseDeps2 onPath currentPkg path.
Proof.
  intros Hperm. revert onPath currentPkg path.
  induction fuel as [|fuel IH]; intros onPath currentPkg path; simpl; [done|].
  case_decide; [done|]. destruct (isExplicit cache currentPkg); [done|].
  apply bind_Permutation_ext; [apply Hperm|]. intros d. apply IH.
Qed.

End Chains.

(* --------------------------------------------------------------------- *)
(* reverseChain                                                          *)
(* --------------------------------------------------------------------- *)

Section ReverseChain.

Implicit Types (chain front middle back : list string) (x y : string).

Lemma swap_ends front middle back x y :
  swap (front ++ x :: middle ++ y :: back)
       (length front) (length front + length middle + 1)
  = front ++ y :: middle ++ x :: back.
Proof.
  unfold swap.
  rewrite list_lookup_middle by done.
  rewrite (lookup_app_r front) by lia.
  replace (length front + length middle + 1 - length front)
    with (S (length middle + 0)) by lia.
  simpl. rewrite (list_lookup_middle middle back y) by lia.
  rewrite !(insert_app_r_alt front) by lia.
  rewrite Nat.sub_diag. simpl.
  replace (length front + length middle + 1 - length front)
    with (S (length middle + 0)) by lia.
  simpl. by rewrite insert_app_r.
Qed.

(* the loop reverses the part of the chain between its two indices *)
Lemma reverseChain_loop_middle steps front middle back :
  length middle <= 2 * steps ->
  reverseChain_loop steps (length front) (length front + length middle - 1)
                    (front ++ middle ++ back)
  = front ++ reverse middle ++ back.
Proof.
  revert front middle back.
  induction steps as [|steps IH]; intros front middle back Hlen; simpl.
  { destruct middle; [done|simpl in Hlen; lia]. }
  destruct middle as [|x middle]; simpl.
  { rewrite (proj2 (Nat.ltb_ge _ _)) by lia. done. }
  destruct (decide (middle = [])) as [->|Hne]; simpl.
  { rewrite (proj2 (Nat.ltb_ge _ _)) by lia. done. }
  destruct (exists_last Hne) as (middle' & y & ->).
  simpl in Hlen. rewrite length_app in Hlen. simpl in Hlen.
  rewrite length_app. simpl.
  rewrite (proj2 (Nat.ltb_lt _ _)) by lia.
  rewrite <-(assoc_L (++)). simpl.
  replace (length front + S (length middle' + 1) - 1)
    with (length front + length middle' + 1) by lia.
  rewrite swap_ends.
  replace (front ++ y :: middle' ++ x :: back)
    with ((front ++ [y]) ++ middle' ++ x :: back)
    by (by rewrite <-(assoc_L (++))).
  assert (length (front ++ [y]) = length front + 1) as Hfront
    by (by rewrite length_app).
  replace (length front + 1) with (length (front ++ [y])) by done.
  replace (length front + length middle' + 1 - 1)
    with (length (front ++ [y]) + length middle' - 1) by lia.
  rewrite IH by lia.
  rewrite reverse_cons, reverse_snoc. simpl.
  by rewrite <-!(assoc_L (++)).
Qed.

(* reverseChain reverses the chain *)
Lemma reverseChain_reverse chain : reverseChain chain = reverse chain.
Proof.
  unfold reverseChain.
  pose proof (reverseChain_loop_middle (length chain) [] chain []) as H.
  simpl in H. rewrite !app_nil_r in H. apply H. lia.
Qed.

End ReverseChain.

(* --------------------------------------------------------------------- *)
(* findInstallationChains                                                *)
(* --------------------------------------------------------------------- *)

(* the possible orders of a range over a given cache, one by one *)
Ltac each_range H :=
  unfold rangeOf in H; symmetry in H; apply permutations_Permutation in H;
  match type of H with
  | _ ∈ ?ps => let ps' := eval vm_compute in ps in change ps with ps' in H
  end;
  repeat (apply elem_of_cons in H as [->|H]);
  [..|by apply elem_of_nil in H].

(* a given order is one of the orders of a range over a given cache *)
Ltac solve_range :=
  unfold rangeOf; symmetry; apply permutations_Permutation;
  vm_compute; repeat first [apply list_elem_of_here | apply list_elem_of_further].

Section FindInstallationChains.

Implicit Types (cache : PackageCache) (entries : list (string * Package))
         (targetPkg : string) (chains : list InstallChain).

Lemma findInstallationChains_Done fuel targetPkg cache entries chains :
  findInstallationChains fuel targetPkg cache entries = Done chains ->
  exists reverseDeps,
    buildReverseDependencyMap entries = Some reverseDeps
    /\ chains = reverse <$> chainsFrom fuel cache reverseDeps ∅ targetPkg [targetPkg].
Proof.
  unfold findInstallationChains.
  destruct (buildReverseDependencyMap entries) as [reverseDeps|]; [|done].
  destruct (dfsBackwards _ _ _ _ _ _) as [[visited found]|] eqn:Hdfs; [|done].
  intros [= <-]. exists reverseDeps. split; [done|].
  apply dfsBackwards_returnsAs in Hdfs as [_ Hfound]. simpl in Hfound.
  rewrite Hfound, visitedSet_empty. simpl.
  apply list_fmap_ext. intros _ chain _. apply reverseChain_reverse.
Qed.

Lemma findInstallationChains_Panicked fuel targetPkg cache entries :
  findInstallationChains fuel targetPkg cache entries = Panicked
  <-> buildReverseDependencyMap entries = Panic.
Proof.
  unfold findInstallationChains.
  destruct (buildReverseDependencyMap entries) as [reverseDeps|]; [|done].
  by destruct (dfsBackwards _ _ _ _ _ _) as [[visited found]|].
Qed.

Lemma findInstallationChains_more_fuel fuel fuel' targetPkg cache entries :
  fuel <= fuel' ->
  findInstallationChains fuel targetPkg cache entries <> FuelExhausted ->
  findInstallationChains fuel' targetPkg cache entries
  = findInstallationChains fuel targetPkg cache entries.
Proof.
  unfold findInstallationChains. intros Hle.
  destruct (buildReverseDependencyMap entries) as [reverseDeps|]; [|done].
  destruct (dfsBackwards fuel _ _ _ _ _) as [st|] eqn:Hdfs; [|done].
  intros _. by rewrite (dfsBackwards_more_fuel _ _ _ _ _ _ _ _ Hle Hdfs).
Qed.

Lemma size_list_to_set_le (names : list string) :
  size (list_to_set names : gset string) <= length names.
Proof.
  induction names as [|name names IH].
  - by rewrite list_to_set_nil, size_empty.
  - rewrite list_to_set_cons, size_union_alt, size_singleton. simpl.
    assert (size (list_to_set names ∖ {[name]} : gset string)
            <= size (list_to_set names : gset string)); [|lia].
    apply subseteq_size. set_solver.
Qed.

Lemma size_reachable targetPkg entries :
  size (reachable targetPkg entries) <= 1 + length entries.
Proof.
  unfold reachable. rewrite size_union_alt, size_singleton.
  pose proof (size_list_to_set_le ((λ entry, Name entry.2) <$> entries)) as Hle.
  rewrite length_fmap in Hle.
  assert (size (list_to_set ((λ entry, Name entry.2) <$> entries) ∖ {[targetPkg]}
                : gset string)
          <= size (list_to_set ((λ entry : string * Package, Name entry.2) <$> entries)
                    : gset string)); [|lia].
  apply subseteq_size. set_solver.
Qed.

(* with fuel for one call per entry and two more, the traversal returns *)
Lemma findInstallationChains_fuel fuel targetPkg cache entries :
  length entries + 2 <= fuel ->
  findInstallationChains fuel targetPkg cache entries <> FuelExhausted.
Proof.
  intros Hfuel. unfold findInstallationChains.
  destruct (buildReverseDependencyMap entries) as [reverseDeps|] eqn:Hbuild; [|done].
  destruct (dfsBackwards_total cache reverseDeps (reachable targetPkg entries))
    with (fuel := fuel) (currentPkg := targetPkg) (path := [targetPkg])
         (st := (∅ : gmap string bool, @nil InstallChain))
    as [[visited found] ->]; [| |  |done].
  - intros k d. rewrite (buildReverseDependencyMap_lookup _ _ k Hbuild).
    intros (entry & Hentry & -> & _)%elem_of_dependentsOf.
    unfold reachable. apply elem_of_union_r, elem_of_list_to_set.
    apply list_elem_of_fmap. by exists entry.
  - unfold reachable. set_solver.
  - pose proof (size_reachable targetPkg entries).
    assert (size (reachable targetPkg entries ∖ visitedSet (∅, @nil InstallChain).1)
            <= size (reachable targetPkg entries)); [|lia].
    apply subseteq_size. set_solver.
Qed.

Lemma findInstallationChains_returns fuel targetPkg cache entries :
  length entries + 2 <= fuel ->
  allCleanable entries ->
  exists chains, findInstallationChains fuel targetPkg cache entries = Done chains.
Proof.
  intros Hfuel Hclean.
  pose proof (findInstallationChains_fuel _ targetPkg cache _ Hfuel) as Hrun.
  destruct (findInstallationChains fuel targetPkg cache entries) as [chains| |] eqn:Hfind;
    [by eexists| |done].
  apply findInstallationChains_Panicked in Hfind.
  destruct (buildReverseDependencyMap_total _ Hclean) as [rd Hrd]. congruence.
Qed.

Lemma rangeOf_length cache entries :
  rangeOf cache entries -> length entries = size (packages cache).
Proof. unfold rangeOf. intros ->. apply length_map_to_list. Qed.

End FindInstallationChains.

(** C1 (as stated, refuted): the index holds the single package A,
    explicitly installed; findInstallationChains(A) returns one chain,
    [A], not the empty collection. *)
Lemma explicit_target_chain_not_empty :
  isExplicit onlyA "A" = true
  /\ findInstallationChains 3 "A" onlyA (map_to_list (packages onlyA)) = Done [["A"]]
  /\ findInstallationChains 3 "A" onlyA (map_to_list (packages onlyA)) <> Done [].
Proof. split_and!; [reflexivity|reflexivity|vm_compute; congruence]. Qed.

(** C1 (amended): for every package P present in the index whose
    install-reason is "Explicitly installed", findInstallationChains(P)
    returns exactly one chain, the one-element chain [P] (when no
    dependency specifier of the index makes buildReverseDependencyMap
    panic). *)
Theorem explicit_target_single_chain
        (cache : PackageCache) (entries : list (string * Package))
        (P : string) (pkg : Package) (fuel : nat) :
  packages cache !! P = Some pkg ->
  InstallReason pkg = ExplicitlyInstalled ->
  allCleanable entries ->
  0 < fuel ->
  findInstallationChains fuel P cache entries = Done [[P]].
Proof.
  intros HP Hreason Hclean Hfuel. unfold findInstallationChains.
  destruct (buildReverseDependencyMap_total _ Hclean) as [reverseDeps ->].
  destruct fuel as [|fuel]; [lia|].
  rewrite dfsBackwards_unfold. simpl.
  unfold isVisited. rewrite lookup_empty. simpl.
  unfold isExplicit. rewrite HP, Hreason. simpl.
  by rewrite reverseChain_reverse.
Qed.

Lemma explicit_target_single_chain_witness :
  packages dependsUpwards !! "A" = Some (explicitPkg "A" [])
  /\ findInstallationChains 1 "A" dependsUpwards (map_to_list (packages dependsUpwards))
     = Done [["A"]].
Proof.
  split; [reflexivity|].
  apply (explicit_target_single_chain dependsUpwards _ "A" (explicitPkg "A" []) 1).
  - reflexivity.
  - reflexivity.
  - vm_compute. repeat constructor; by eexists.
  - lia.
Defined.

(** C2 (as stated, refuted): with A explicit, B depending on A and C
    depending on B, nothing depends on C, and findInstallationChains(C)
    returns no chain. *)
Lemma dependsUpwards_no_chain :
  findInstallationChains 5 "C" dependsUpwards (map_to_list (packages dependsUpwards))
  = Done []
  /\ findInstallationChains 5 "C" dependsUpwards (map_to_list (packages dependsUpwards))
     <> Done [["A"; "B"; "C"]].
Proof. split; [reflexivity|vm_compute; congruence]. Qed.

(** C2 (amended): for the index containing exactly A (Explicit, no
    dependencies), B (Dependency, dependency list ["A"]) and C (Dependency,
    dependency list ["B"]), findInstallationChains(C) returns no chain;
    the single chain [A, B, C], root first, is what it returns for the
    index in which the dependencies point from the root to the target: A
    (Explicit, dependency list ["B"]), B (Dependency, dependency list
    ["C"]) and C (Dependency, no dependencies). *)
Theorem chain_follows_dependencies :
  (forall (entries : list (string * Package)) (fuel : nat),
      rangeOf dependsUpwards entries -> 1 <= fuel ->
      findInstallationChains fuel "C" dependsUpwards entries = Done [])
  /\ (forall (entries : list (string * Package)) (fuel : nat),
         rangeOf pulledIn entries -> 3 <= fuel ->
         findInstallationChains fuel "C" pulledIn entries = Done [["A"; "B"; "C"]]).
Proof.
  split; intros entries fuel Hrange Hfuel.
  - each_range Hrange;
      (rewrite (findInstallationChains_more_fuel 1); [reflexivity|done|done]).
  - each_range Hrange;
      (rewrite (findInstallationChains_more_fuel 3); [reflexivity|done|done]).
Qed.

Lemma chain_follows_dependencies_witness :
  rangeOf pulledIn (map_to_list (packages pulledIn))
  /\ findInstallationChains 5 "C" pulledIn (map_to_list (packages pulledIn))
     = Done [["A"; "B"; "C"]].
Proof.
  split; [unfold rangeOf; reflexivity|].
  apply (proj2 chain_follows_dependencies); [unfold rangeOf; reflexivity|lia].
Defined.

(** C3: for every package index and every target, every chain returned by
    findInstallationChains is a simple path: no package name occurs twice
    in it, whatever the reverse dependency map, cyclic or not. *)
Theorem chains_are_simple_paths
        (cache : PackageCache) (entries : list (string * Package))
        (targetPkg : string) (fuel : nat) (chains : list InstallChain) :
  findInstallationChains fuel targetPkg cache entries = Done chains ->
  forall chain, chain ∈ chains -> NoDup chain.
Proof.
  intros (reverseDeps & _ & ->)%findInstallationChains_Done chain.
  intros (chain' & -> & Hchain)%list_elem_of_fmap.
  rewrite reverse_Permutation.
  apply (chainsFrom_NoDup cache fuel reverseDeps ∅ targetPkg []);
    [apply NoDup_nil_2|by intros k ?%elem_of_nil|done].
Qed.

Lemma chains_are_simple_paths_witness :
  findInstallationChains 5 "N" rootedCycle (map_to_list (packages rootedCycle))
  = Done [["R"; "M"; "N"]]
  /\ NoDup ["R"; "M"; "N"].
Proof.
  split; [reflexivity|].
  apply (chains_are_simple_paths rootedCycle (map_to_list (packages rootedCycle))
                                 "N" 5 [["R"; "M"; "N"]]).
  - reflexivity.
  - apply list_elem_of_here.
Defined.

(** C4: for every finite package index, whatever the order of the range
    over it and whatever its dependency relation, findInstallationChains
    terminates: the recursion of dfsBackwards is never deeper than the
    number of packages plus two, more fuel does not change the outcome,
    and the call returns its chains unless buildReverseDependencyMap
    panicked before the traversal.  In the index where M depends on N and
    N depends on M, neither explicit, it returns zero chains. *)
Theorem findInstallationChains_terminates :
  (forall (cache : PackageCache) (entries : list (string * Package))
          (targetPkg : string) (fuel : nat),
      rangeOf cache entries ->
      size (packages cache) + 2 <= fuel ->
      findInstallationChains fuel targetPkg cache entries <> FuelExhausted
      /\ findInstallationChains fuel targetPkg cache entries
         = findInstallationChains (size (packages cache) + 2) targetPkg cache entries
      /\ (allCleanable entries ->
          exists chains,
            findInstallationChains fuel targetPkg cache entries = Done chains))
  /\ (forall (entries : list (string * Package)) (fuel : nat),
         rangeOf cyclicMN entries ->
         size (packages cyclicMN) + 2 <= fuel ->
         findInstallationChains fuel "M" cyclicMN entries = Done []
         /\ findInstallationChains fuel "N" cyclicMN entries = Done []).
Proof.
  split.
  - intros cache entries targetPkg fuel Hrange Hfuel.
    rewrite <-(rangeOf_length _ _ Hrange) in *. split_and!.
    + by apply findInstallationChains_fuel.
    + apply findInstallationChains_more_fuel; [done|].
      by apply findInstallationChains_fuel.
    + by apply findInstallationChains_returns.
  - intros entries fuel Hrange Hfuel.
    change (size (packages cyclicMN) + 2) with 4 in Hfuel.
    each_range Hrange;
      (split; (rewrite (findInstallationChains_more_fuel 4); [reflexivity|done|done])).
Qed.

Lemma findInstallationChains_terminates_witness :
  rangeOf cyclicMN (map_to_list (packages cyclicMN))
  /\ findInstallationChains 4 "M" cyclicMN (map_to_list (packages cyclicMN))
     <> FuelExhausted
  /\ findInstallationChains 7 "M" cyclicMN (map_to_list (packages cyclicMN))
     = Done [].
Proof.
  split; [unfold rangeOf; reflexivity|]. split.
  - apply (proj1 findInstallationChains_terminates cyclicMN _ "M" 4);
      [unfold rangeOf; reflexivity|vm_compute; lia].
  - apply (proj2 findInstallationChains_terminates _ 7);
      [unfold rangeOf; reflexivity|vm_compute; lia].
Defined.

(** C9 (as stated, refuted): X and Y are explicit and both depend on Z.
    The range over the index may yield X before Y or Y before X; the two
    runs return the chains [X, Z] and [Y, Z] in different orders. *)
Lemma chain_order_depends_on_range :
  rangeOf diamond [("X", explicitPkg "X" ["Z>=2"]); ("Y", explicitPkg "Y" ["Z"]);
                   ("Z", dependencyPkg "Z" [])]
  /\ rangeOf diamond [("Y", explicitPkg "Y" ["Z"]); ("X", explicitPkg "X" ["Z>=2"]);
                      ("Z", dependencyPkg "Z" [])]
  /\ findInstallationChains 5 "Z" diamond
       [("X", explicitPkg "X" ["Z>=2"]); ("Y", explicitPkg "Y" ["Z"]);
        ("Z", dependencyPkg "Z" [])]
     = Done [["X"; "Z"]; ["Y"; "Z"]]
  /\ findInstallationChains 5 "Z" diamond
       [("Y", explicitPkg "Y" ["Z"]); ("X", explicitPkg "X" ["Z>=2"]);
        ("Z", dependencyPkg "Z" [])]
     = Done [["Y"; "Z"]; ["X"; "Z"]]
  /\ findInstallationChains 5 "Z" diamond
       [("X", explicitPkg "X" ["Z>=2"]); ("Y", explicitPkg "Y" ["Z"]);
        ("Z", dependencyPkg "Z" [])]
     <> findInstallationChains 5 "Z" diamond
          [("Y", explicitPkg "Y" ["Z"]); ("X", explicitPkg "X" ["Z>=2"]);
           ("Z", dependencyPkg "Z" [])].
Proof.
  split_and!; [solve_range|solve_range|reflexivity|reflexivity|].
  vm_compute. congruence.
Qed.

(** C9 (amended): for a fixed package index and target name, any two runs
    of findInstallationChains, whatever the orders in which they range
    over the index, either both panic in buildReverseDependencyMap or
    return the same chains up to order: the two results are permutations
    of each other. *)
Theorem chains_same_up_to_order
        (cache : PackageCache) (entries1 entries2 : list (string * Package))
        (targetPkg : string) (fuel : nat) :
  rangeOf cache entries1 ->
  rangeOf cache entries2 ->
  size (packages cache) + 2 <= fuel ->
  (findInstallationChains fuel targetPkg cache entries1 = Panicked
   /\ findInstallationChains fuel targetPkg cache entries2 = Panicked)
  \/ (exists chains1 chains2,
         findInstallationChains fuel targetPkg cache entries1 = Done chains1
         /\ findInstallationChains fuel targetPkg cache entries2 = Done chains2
         /\ chains1 ≡ₚ chains2).
Proof.
  intros Hrange1 Hrange2 Hfuel.
  assert (entries1 ≡ₚ entries2) as Hperm by (by rewrite Hrange1, Hrange2).
  assert (length entries1 + 2 <= fuel) as Hfuel1
    by (by rewrite (rangeOf_length _ _ Hrange1)).
  assert (length entries2 + 2 <= fuel) as Hfuel2
    by (by rewrite (rangeOf_length _ _ Hrange2)).
  destruct (buildReverseDependencyMap entries1) as [rd1|] eqn:Hbuild1.
  - right.
    pose proof (buildReverseDependencyMap_cleanable _ _ Hbuild1) as Hclean1.
    pose proof (allCleanable_Permutation _ _ Hperm Hclean1) as Hclean2.
    destruct (findInstallationChains_returns _ targetPkg cache _ Hfuel1 Hclean1)
      as [chains1 Hfind1].
    destruct (findInstallationChains_returns _ targetPkg cache _ Hfuel2 Hclean2)
      as [chains2 Hfind2].
    exists chains1, chains2. split_and!; [done..|].
    apply findInstallationChains_Done in Hfind1 as (rd1' & Hrd1 & ->).
    apply findInstallationChains_Done in Hfind2 as (rd2 & Hrd2 & ->).
    apply fmap_Permutation, chainsFrom_Permutation. intros k.
    rewrite (buildReverseDependencyMap_lookup _ _ k Hrd1).
    rewrite (buildReverseDependencyMap_lookup _ _ k Hrd2).
    by apply dependentsOf_Permutation.
  - left. split; [by apply findInstallationChains_Panicked|].
    apply findInstallationChains_Panicked.
    destruct (buildReverseDependencyMap entries2) as [rd2|] eqn:Hbuild2; [|done].
    apply buildReverseDependencyMap_cleanable in Hbuild2.
    symmetry in Hperm.
    apply (allCleanable_Permutation _ _ Hperm) in Hbuild2.
    apply buildReverseDependencyMap_total in Hbuild2 as [rd1 Hrd1]. congruence.
Qed.

Lemma chains_same_up_to_order_witness :
  (findInstallationChains 5 "Z" diamond
     [("X", explicitPkg "X" ["Z>=2"]); ("Y", explicitPkg "Y" ["Z"]);
      ("Z", dependencyPkg "Z" [])] = Panicked
   /\ findInstallationChains 5 "Z" diamond
        [("Y", explicitPkg "Y" ["Z"]); ("X", explicitPkg "X" ["Z>=2"]);
         ("Z", dependencyPkg "Z" [])] = Panicked)
  \/ (exists chains1 chains2,
         findInstallationChains 5 "Z" diamond
           [("X", explicitPkg "X" ["Z>=2"]); ("Y", explicitPkg "Y" ["Z"]);
            ("Z", dependencyPkg "Z" [])] = Done chains1
         /\ findInstallationChains 5 "Z" diamond
              [("Y", explicitPkg "Y" ["Z"]); ("X", explicitPkg "X" ["Z>=2"]);
               ("Z", dependencyPkg "Z" [])] = Done chains2
         /\ chains1 ≡ₚ chains2).
Proof.
  apply (chains_same_up_to_order diamond); [solve_range|solve_range|vm_compute; lia].
Defined.

(* --------------------------------------------------------------------- *)
(* The package index                                                     *)
(* --------------------------------------------------------------------- *)

Section PackageIndex.

Variable TrimSpace : string -> string.

Implicit Types (index : gmap string Package) (entry : DirEntry)
         (entries : list DirEntry).

Local Abbreviation parsesTo := (parsesTo TrimSpace).

Lemma loadEntry_cases index entry :
  (exists pkg, parsesTo entry pkg
               /\ loadEntry TrimSpace index entry = <[Name pkg := pkg]> index)
  \/ ((forall pkg, ~ parsesTo entry pkg) /\ loadEntry TrimSpace index entry = index).
Proof.
  unfold loadEntry, parsesTo. destruct (IsDir entry); simpl.
  - destruct (parseDescFile TrimSpace (desc entry)) as [[pkg|] [err|]];
      [right|left|right|right]; try (split; [intros pkg' [_ [=]]|done]).
    by exists pkg.
  - right. split; [by intros pkg [[=] _]|done].
Qed.

(* every key is the Name of its record, and every record was parsed from
   a directory entry *)
Lemma foldl_loadEntry_keys entries index key pkg :
  (forall k p, index !! k = Some p -> Name p = k) ->
  foldl (loadEntry TrimSpace) index entries !! key = Some pkg ->
  Name pkg = key
  /\ (index !! key = Some pkg \/ exists entry, entry ∈ entries /\ parsesTo entry pkg).
Proof.
  revert index. induction entries as [|entry entries IH]; intros index Hindex; simpl.
  - intros Hkey. split; [by apply Hindex|by left].
  - intros Hkey. apply IH in Hkey as [Hname Hfrom].
    + split; [done|].
      destruct Hfrom as [Hfrom|(entry' & Hin & Hparse)];
        [|right; exists entry'; split; [by right|done]].
      destruct (loadEntry_cases index entry) as [(p & Hparse & Hload)|[_ Hload]];
        rewrite Hload in Hfrom; [|by left].
      destruct (decide (Name p = key)) as [Heq|Hne].
      * rewrite Heq, lookup_insert_eq in Hfrom. injection Hfrom as ->.
        right. exists entry. split; [left|done].
      * rewrite lookup_insert_ne in Hfrom by done. by left.
    + intros k p.
      destruct (loadEntry_cases index entry) as [(p' & _ & ->)|[_ ->]];
        [|apply Hindex].
      destruct (decide (Name p' = k)) as [Heq|Hne].
      * rewrite Heq, lookup_insert_eq. by intros [= <-].
      * rewrite lookup_insert_ne by done. apply Hindex.
Qed.

(* a key once stored stays in the index *)
Lemma foldl_loadEntry_keeps entries index key :
  is_Some (index !! key) ->
  is_Some (foldl (loadEntry TrimSpace) index entries !! key).
Proof.
  revert index. induction entries as [|entry entries IH]; intros index Hkey; simpl;
    [done|].
  apply IH.
  destruct (loadEntry_cases index entry) as [(p & _ & ->)|[_ ->]]; [|done].
  destruct (decide (Name p = key)) as [Heq|Hne].
  - rewrite Heq, lookup_insert_eq. by eexists.
  - by rewrite lookup_insert_ne.
Qed.

Lemma foldl_loadEntry_stores entries index entry pkg :
  entry ∈ entries -> parsesTo entry pkg ->
  is_Some (foldl (loadEntry TrimSpace) index entries !! Name pkg).
Proof.
  intros Hin Hparse. revert index.
  induction Hin as [entry entries|entry entry' entries Hin IH]; intros index; simpl;
    [|by apply IH].
  apply foldl_loadEntry_keeps.
  destruct (loadEntry_cases index entry) as [(p & [_ Hp] & ->)|[Hno _]].
  - destruct Hparse as [_ Hparse]. rewrite Hparse in Hp. injection Hp as <-.
    rewrite lookup_insert_eq. by eexists.
  - by destruct (Hno pkg).
Qed.

(* entries that store other names leave a key as it is *)
Lemma foldl_loadEntry_other entries index key :
  (forall entry pkg, entry ∈ entries -> parsesTo entry pkg -> Name pkg <> key) ->
  foldl (loadEntry TrimSpace) index entries !! key = index !! key.
Proof.
  revert index. induction entries as [|entry entries IH]; intros index Hother; simpl;
    [done|].
  rewrite IH by (intros e p He; apply Hother; by right).
  destruct (loadEntry_cases index entry) as [(p & Hp & ->)|[_ ->]]; [|done].
  apply lookup_insert_ne. apply (Hother entry); [left|done].
Qed.

Lemma parsesTo_functional entry pkg1 pkg2 :
  parsesTo entry pkg1 -> parsesTo entry pkg2 -> pkg1 = pkg2.
Proof. intros [_ H1] [_ H2]. rewrite H1 in H2. by injection H2. Qed.

(* the last directory, parsed without error, that bears a name is the one
   whose record the index keeps under that name *)
Lemma foldl_loadEntry_last_stored before entry after pkg :
  parsesTo entry pkg ->
  (forall later p, later ∈ after -> parsesTo later p -> Name p <> Name pkg) ->
  foldl (loadEntry TrimSpace) ∅ (before ++ entry :: after) !! Name pkg = Some pkg.
Proof.
  intros Hparse Hafter. rewrite foldl_app. simpl.
  rewrite foldl_loadEntry_other by done.
  destruct (loadEntry_cases (foldl (loadEntry TrimSpace) ∅ before) entry)
    as [(p & Hp & ->)|[Hno _]]; [|by destruct (Hno pkg)].
  rewrite (parsesTo_functional _ _ _ Hparse Hp). apply lookup_insert_eq.
Qed.

(* and every record of the index is kept for that reason *)
Lemma foldl_loadEntry_stored_last entries key pkg :
  foldl (loadEntry TrimSpace) ∅ entries !! key = Some pkg ->
  exists before entry after,
    entries = before ++ entry :: after
    /\ parsesTo entry pkg /\ Name pkg = key
    /\ forall later p, later ∈ after -> parsesTo later p -> Name p <> key.
Proof.
  induction entries as [|e entries IH] using rev_ind;
    [simpl; by rewrite lookup_empty|].
  rewrite foldl_app. simpl.
  destruct (loadEntry_cases (foldl (loadEntry TrimSpace) ∅ entries) e)
    as [(p & Hp & ->)|[Hno ->]].
  - destruct (decide (Name p = key)) as [Hkey|Hkey].
    + rewrite <-Hkey, lookup_insert_eq. intros [= <-].
      exists entries, e, []. split_and!; [done..|]. by intros later q ?%elem_of_nil.
    + rewrite lookup_insert_ne by done.
      intros (before & entry & after & -> & Hparse & Hname & Hafter)%IH.
      exists before, entry, (after ++ [e]).
      split_and!; [by rewrite <-(assoc_L (++))|done..|].
      intros later q [Hin| ->%list_elem_of_singleton]%elem_of_app Hq;
        [by eapply Hafter|].
      by rewrite (parsesTo_functional _ _ _ Hq Hp).
  - intros (before & entry & after & -> & Hparse & Hname & Hafter)%IH.
    exists before, entry, (after ++ [e]).
    split_and!; [by rewrite <-(assoc_L (++))|done..|].
    intros later q [Hin| ->%list_elem_of_singleton]%elem_of_app Hq;
      [by eapply Hafter|]. by destruct (Hno q).
Qed.

End PackageIndex.

(** C6 (as stated, refuted): the local database holds one directory whose
    desc file has no %NAME% section; parseDescFile returns a record with
    the empty Name and no error, and loadAllPackages stores it under the
    empty key. *)
Lemma nameless_record_is_indexed :
  parseDescFile GoStrings.TrimSpaceASCII (desc namelessEntry)
  = (Some (mkPackage "" "1.0-1" ExplicitlyInstalled ["glibc"] []), None)
  /\ loadAllPackages GoStrings.TrimSpaceASCII (inl [namelessEntry])
     = inl (mkCache {[ "" := mkPackage "" "1.0-1" ExplicitlyInstalled ["glibc"] [] ]}).
Proof. split; reflexivity. Qed.

(** C6 (amended): after loadAllPackages builds the package index, every
    key of the index equals the Name field of the record it maps to, and
    every record of the index is the result of parsing, without error,
    the desc file of a directory of the store; every directory whose desc
    file is parsed without error has the Name of its record as a key of
    the index (the empty name included), and the record kept under a name
    is that of the last such directory of the store: a record is left out
    exactly when its entry is not a directory, parseDescFile returns an
    error, or a later directory parsed without error has the same Name. *)
Theorem index_keys_are_names
        (TrimSpace : string -> string) (entries : list DirEntry)
        (cache : PackageCache) :
  loadAllPackages TrimSpace (inl entries) = inl cache ->
  (forall key pkg,
      packages cache !! key = Some pkg ->
      Name pkg = key
      /\ exists entry, entry ∈ entries /\ parsesTo TrimSpace entry pkg)
  /\ (forall entry pkg,
         entry ∈ entries -> parsesTo TrimSpace entry pkg ->
         is_Some (packages cache !! Name pkg))
  /\ (forall key pkg,
         packages cache !! key = Some pkg
         <-> exists before entry after,
               entries = before ++ entry :: after
               /\ parsesTo TrimSpace entry pkg /\ Name pkg = key
               /\ forall later p,
                    later ∈ after -> parsesTo TrimSpace later p -> Name p <> key).
Proof.
  simpl. intros [= <-]. simpl. split_and!.
  - intros key pkg Hkey.
    apply foldl_loadEntry_keys in Hkey as [Hname Hfrom].
    + split; [done|].
      destruct Hfrom as [Hempty|Hentry]; [by rewrite lookup_empty in Hempty|done].
    + intros k p. by rewrite lookup_empty.
  - intros entry pkg. apply foldl_loadEntry_stores.
  - intros key pkg. split; [apply foldl_loadEntry_stored_last|].
    intros (before & entry & after & -> & Hparse & <- & Hafter).
    by apply foldl_loadEntry_last_stored.
Qed.

Lemma index_keys_are_names_witness :
  loadAllPackages GoStrings.TrimSpaceASCII (inl [bashEntry; namelessEntry])
  = inl loadedSample
  /\ forall key pkg,
      packages loadedSample !! key = Some pkg ->
      Name pkg = key
      /\ exists entry, entry ∈ [bashEntry; namelessEntry]
                       /\ parsesTo GoStrings.TrimSpaceASCII entry pkg.
Proof.
  split; [reflexivity|].
  apply (index_keys_are_names GoStrings.TrimSpaceASCII [bashEntry; namelessEntry]
                              loadedSample).
  reflexivity.
Defined.

(* --------------------------------------------------------------------- *)
(* The index during a query                                              *)
(* --------------------------------------------------------------------- *)

Section Query.

Implicit Types (cache : PackageCache) (entries : list (string * Package)).

Lemma getPackageInfo_found pkgName cache entries pkg cache' result :
  packages cache !! pkgName = Some pkg ->
  getPackageInfo pkgName cache entries = Some (cache', result) ->
  exists requiredBy,
    findRequiredBy pkgName entries = Some requiredBy
    /\ result = inl (setRequiredBy pkg requiredBy)
    /\ packages cache' = <[pkgName := setRequiredBy pkg requiredBy]> (packages cache).
Proof.
  unfold getPackageInfo. intros ->.
  destruct (findRequiredBy pkgName entries) as [requiredBy|]; [|done].
  intros [= <- <-]. by exists requiredBy.
Qed.

Lemma getPackageInfo_not_found pkgName cache entries cache' result :
  packages cache !! pkgName = None ->
  getPackageInfo pkgName cache entries = Some (cache', result) ->
  cache' = cache /\ exists err, result = inr err.
Proof.
  unfold getPackageInfo. intros ->. intros [= <- <-]. split; [done|by eexists].
Qed.

(* the cache a query leaves is the one getPackageInfo leaves *)
Lemma runQuery_cache fuel pkgName cache entries1 entries2 cache' result :
  runQuery fuel pkgName cache entries1 entries2 = Done (cache', result) ->
  exists info, getPackageInfo pkgName cache entries1 = Some (cache', info).
Proof.
  unfold runQuery.
  destruct (getPackageInfo pkgName cache entries1) as [[cache1 [pkg|err]]|]; [| |done].
  - destruct (findInstallationChains _ _ _ _); [|done..].
    intros [= <- <-]. by eexists.
  - intros [= <- <-]. by eexists.
Qed.

End Query.

(** C7 (as stated, refuted): A depends on B; getPackageInfo(B) stores
    ["A"] in the RequiredBy field of the record the index holds for B,
    which was empty when the index was built. *)
Lemma getPackageInfo_writes_RequiredBy :
  packages pulledIn !! "B" = Some (mkPackage "B" "1.0-1" InstalledAsDependency ["C"] [])
  /\ match getPackageInfo "B" pulledIn (map_to_list (packages pulledIn)) with
     | Some (cache', _) =>
         packages cache' !! "B"
         = Some (mkPackage "B" "1.0-1" InstalledAsDependency ["C"] ["A"])
         /\ packages cache' !! "B" <> packages pulledIn !! "B"
     | Panic => False
     end.
Proof. split; [reflexivity|]. vm_compute. split; congruence. Qed.

(** C7 (amended): after loadAllPackages returns, a query (getPackageInfo,
    then findInstallationChains, with the findRequiredBy it calls) leaves
    in the index, for every package name, a record with the Name, Version,
    InstallReason and Dependencies of the record present when the index
    was built, and adds or removes no key; the records of all names other
    than the queried one are unchanged in every field, and the RequiredBy
    field of the queried record is overwritten by getPackageInfo with the
    result of findRequiredBy. *)
Theorem query_overwrites_only_RequiredBy
        (fuel : nat) (pkgName : string) (cache cache' : PackageCache)
        (entries1 entries2 : list (string * Package))
        (result : Package * list InstallChain + error) :
  runQuery fuel pkgName cache entries1 entries2 = Done (cache', result) ->
  forall key,
    match packages cache !! key, packages cache' !! key with
    | Some pkg, Some pkg' =>
        Name pkg' = Name pkg
        /\ Version pkg' = Version pkg
        /\ InstallReason pkg' = InstallReason pkg
        /\ Dependencies pkg' = Dependencies pkg
        /\ (key <> pkgName -> pkg' = pkg)
        /\ (key = pkgName ->
            findRequiredBy pkgName entries1 = Some (RequiredBy pkg'))
    | None, None => True
    | _, _ => False
    end.
Proof.
  intros [info Hinfo]%runQuery_cache key.
  destruct (packages cache !! pkgName) as [queried|] eqn:Hqueried.
  - apply (getPackageInfo_found _ _ _ _ _ _ Hqueried) in Hinfo
      as (requiredBy & Hrb & _ & ->).
    destruct (decide (key = pkgName)) as [->|Hne].
    + rewrite Hqueried, lookup_insert_eq. simpl. by split_and!.
    + rewrite lookup_insert_ne by done.
      destruct (packages cache !! key); [by split_and!|done].
  - apply (getPackageInfo_not_found _ _ _ _ _ Hqueried) in Hinfo as [-> _].
    destruct (packages cache !! key) as [pkg|] eqn:Hkey; [|done].
    split_and!; [done..|]. intros ->. congruence.
Qed.

Lemma query_overwrites_only_RequiredBy_witness :
  runQuery 5 "B" pulledIn (map_to_list (packages pulledIn))
           (map_to_list (packages queriedB))
  = Done (queriedB, inl (dependencyPkgRequiredBy "B" ["C"] ["A"], [["A"; "B"]]))
  /\ match packages pulledIn !! "B", packages queriedB !! "B" with
     | Some pkg, Some pkg' =>
         Name pkg' = Name pkg
         /\ Version pkg' = Version pkg
         /\ InstallReason pkg' = InstallReason pkg
         /\ Dependencies pkg' = Dependencies pkg
         /\ ("B" <> "B" -> pkg' = pkg)
         /\ ("B" = "B" ->
             findRequiredBy "B" (map_to_list (packages pulledIn))
             = Some (RequiredBy pkg'))
     | None, None => True
     | _, _ => False
     end.
Proof.
  split; [reflexivity|].
  apply (query_overwrites_only_RequiredBy
           5 "B" pulledIn queriedB
           (map_to_list (packages pulledIn)) (map_to_list (packages queriedB))
           (inl (dependencyPkgRequiredBy "B" ["C"] ["A"], [["A"; "B"]]))).
  reflexivity.
Defined.

(* ===================================================================== *)
(* Further properties of the code                                        *)
(* ===================================================================== *)

(* --------------------------------------------------------------------- *)
(* cleanDependencyName on every specifier                                *)
(* --------------------------------------------------------------------- *)

Section Fields.

Import GoStrings.

Implicit Types (f : ascii -> bool) (s dep : string).

Lemma FieldsFunc_from_closed f s :
  hd_error (FieldsFunc_from f None s)
  = if stringForall f s then None else Some (firstField f s).
Proof.
  unfold firstField. induction s as [|r s IH]; simpl; [done|].
  destruct (f r) eqn:Hr; simpl; [done|].
  rewrite Hr. simpl. by rewrite FieldsFunc_from_open.
Qed.

Lemma cleanDependencyName_fields dep :
  cleanDependencyName dep
  = if stringForall isSeparator dep then None
    else Some (firstField isSeparator dep).
Proof. rewrite cleanDependencyName_hd. apply FieldsFunc_from_closed. Qed.

Lemma cleanDependencyName_None dep :
  cleanDependencyName dep = None <-> stringForall isSeparator dep = true.
Proof.
  rewrite cleanDependencyName_fields.
  by destruct (stringForall isSeparator dep).
Qed.

Lemma substringBeforeFirst_clean f s :
  stringForall (λ r, negb (f r)) (substringBeforeFirst f s) = true.
Proof.
  induction s as [|r s IH]; simpl; [done|].
  destruct (f r) eqn:Hr; simpl; [done|]. by rewrite Hr.
Qed.

Lemma substringBeforeFirst_id f s :
  stringForall (λ r, negb (f r)) s = true -> substringBeforeFirst f s = s.
Proof.
  induction s as [|r s IH]; simpl; [done|].
  destruct (f r); simpl; [done|]. by intros ->%IH.
Qed.

Lemma firstField_nonempty f s :
  stringForall f s = false ->
  exists r rest, firstField f s = String r rest /\ f r = false.
Proof.
  unfold firstField. induction s as [|r s IH]; simpl; [done|].
  destruct (f r) eqn:Hr; simpl; [done|].
  intros _. rewrite Hr. by eexists _, _.
Qed.

End Fields.

(** X1: cleanDependencyName on every specifier: it panics exactly when the
    specifier has no character other than ' ', '<', '>', '=' (the empty
    specifier included); otherwise it returns the first field, that is,
    the specifier without its leading separators, cut before the next
    separator. *)
Theorem cleanDependencyName_first_field (dep : string) :
  (cleanDependencyName dep = Panic <-> stringForall isSeparator dep = true)
  /\ (stringForall isSeparator dep = false ->
      cleanDependencyName dep
      = Some (substringBeforeFirst isSeparator (dropLeading isSeparator dep))).
Proof.
  split; [apply cleanDependencyName_None|].
  rewrite cleanDependencyName_fields. by intros ->.
Qed.

Lemma cleanDependencyName_first_field_witness :
  stringForall isSeparator " >=glibc>=2.38" = false
  /\ cleanDependencyName " >=glibc>=2.38" = Some "glibc".
Proof.
  split; [reflexivity|].
  apply (proj2 (cleanDependencyName_first_field " >=glibc>=2.38")). reflexivity.
Defined.

(** X2: a name returned by cleanDependencyName is never empty, contains
    none of the separators ' ', '<', '>', '=', and is left unchanged by
    cleaning it again. *)
Theorem cleanDependencyName_result (dep depName : string) :
  cleanDependencyName dep = Some depName ->
  depName <> ""
  /\ stringForall isNameChar depName = true
  /\ cleanDependencyName depName = Some depName.
Proof.
  rewrite cleanDependencyName_fields.
  destruct (stringForall isSeparator dep) eqn:Hdep; [done|].
  intros [= <-].
  destruct (firstField_nonempty _ _ Hdep) as (r & rest & Hfield & Hr).
  assert (stringForall isNameChar (firstField isSeparator dep) = true) as Hclean
    by apply substringBeforeFirst_clean.
  split_and!; [by rewrite Hfield|done|].
  rewrite cleanDependencyName_begins.
  - by rewrite substringBeforeFirst_id.
  - rewrite Hfield. simpl. by rewrite Hr.
Qed.

Lemma cleanDependencyName_result_witness :
  cleanDependencyName "readline>=8.0" = Some "readline"
  /\ "readline" <> ""
  /\ stringForall isNameChar "readline" = true
  /\ cleanDependencyName "readline" = Some "readline".
Proof.
  split; [reflexivity|].
  apply (cleanDependencyName_result "readline>=8.0" "readline"). reflexivity.
Defined.

(* --------------------------------------------------------------------- *)
(* The keys of the reverse dependency map                                *)
(* --------------------------------------------------------------------- *)

Section ReverseMapKeys.

Implicit Types (pkg : Package) (deps : list string)
         (entries : list (string * Package))
         (reverseDeps : gmap string (list string)).

Lemma lookup_total_Some_or_nil reverseDeps d :
  (forall l, reverseDeps !! d = Some l -> l <> []) ->
  reverseDeps !! d
  = if decide (reverseDeps !!! d = []) then None else Some (reverseDeps !!! d).
Proof.
  intros Hne. rewrite lookup_total_alt.
  destruct (reverseDeps !! d) as [l|] eqn:Hd.
  - rewrite decide_False; [done|]. by apply Hne.
  - by rewrite decide_True.
Qed.

Lemma addDependent_nonempty pkg dep reverseDeps reverseDeps' :
  (forall d l, reverseDeps !! d = Some l -> l <> []) ->
  addDependent pkg dep reverseDeps = Some reverseDeps' ->
  forall d l, reverseDeps' !! d = Some l -> l <> [].
Proof.
  unfold addDependent. intros Hne.
  destruct (cleanDependencyName dep) as [depName|]; [|done].
  intros [= <-] d l.
  destruct (decide (depName = d)) as [->|Hd].
  - rewrite lookup_insert_eq. intros [= <-]. by intros [_ [=]]%app_eq_nil.
  - rewrite lookup_insert_ne by done. apply Hne.
Qed.

Lemma build_nonempty entries reverseDeps :
  buildReverseDependencyMap entries = Some reverseDeps ->
  forall d l, reverseDeps !! d = Some l -> l <> [].
Proof.
  unfold buildReverseDependencyMap.
  apply (forEach_invariant (λ rd : gmap string (list string),
                              forall d l, rd !! d = Some l -> l <> [])).
  - intros entry rd rd' _ Hrd.
    apply (forEach_invariant (λ rd : gmap string (list string),
                                forall d l, rd !! d = Some l -> l <> [])); [|done].
    intros dep t t' _. apply addDependent_nonempty.
  - intros d l. by rewrite lookup_empty.
Qed.

Lemma not_allCleanable entries :
  ~ allCleanable entries
  <-> exists entry dep,
        entry ∈ entries /\ dep ∈ Dependencies entry.2
        /\ stringForall isSeparator dep = true.
Proof.
  unfold allCleanable, cleanable. split.
  - intros (entry & Hentry & Hdeps)%not_Forall_Exists%Exists_exists;
      [|intros entry; apply _].
    apply not_Forall_Exists, Exists_exists in Hdeps as (dep & Hdep & Hclean);
      [|intros dep; apply _].
    exists entry, dep. split_and!; [done..|].
    apply cleanDependencyName_None.
    simpl in Hclean. by destruct (cleanDependencyName dep); [destruct Hclean|].
  - intros (entry & dep & Hentry & Hdep & Hsep%cleanDependencyName_None) Hall.
    rewrite Forall_forall in Hall. specialize (Hall entry Hentry).
    rewrite Forall_forall in Hall. specialize (Hall dep Hdep).
    rewrite Hsep in Hall. by destruct Hall.
Qed.

End ReverseMapKeys.

(** X3: buildReverseDependencyMap panics exactly when some record of the
    index lists a dependency specifier made of the separators ' ', '<',
    '>', '=' only (a condition that does not depend on the order of the
    range); otherwise it returns a map. *)
Theorem buildReverseDependencyMap_panics_iff (entries : list (string * Package)) :
  buildReverseDependencyMap entries = Panic
  <-> exists entry dep,
        entry ∈ entries /\ dep ∈ Dependencies entry.2
        /\ stringForall isSeparator dep = true.
Proof.
  rewrite <-not_allCleanable. split.
  - intros Hpanic Hall.
    apply buildReverseDependencyMap_total in Hall as [rd Hrd]. congruence.
  - intros Hnot.
    destruct (buildReverseDependencyMap entries) as [rd|] eqn:Hbuild; [|done].
    by apply buildReverseDependencyMap_cleanable in Hbuild.
Qed.

Lemma buildReverseDependencyMap_panics_iff_witness :
  buildReverseDependencyMap (map_to_list (packages malformedIndex)) = Panic.
Proof.
  apply (proj2 (buildReverseDependencyMap_panics_iff
                  (map_to_list (packages malformedIndex)))).
  exists ("p", mkPackage "p" "" ExplicitlyInstalled ["="] []), "=".
  split_and!; [vm_compute; apply list_elem_of_here|apply list_elem_of_here|reflexivity].
Defined.

(** X4: in the map buildReverseDependencyMap returns, a name is a key
    exactly when some record lists a dependency that normalises to it, no
    key maps to an empty list, and the list under a key holds the Name of
    the depending records in the order of the range, once per matching
    specifier. *)
Theorem buildReverseDependencyMap_keys
        (entries : list (string * Package))
        (reverseDeps : gmap string (list string)) (d : string) :
  buildReverseDependencyMap entries = Some reverseDeps ->
  reverseDeps !! d
  = if decide (dependentsOf d entries = []) then None
    else Some (dependentsOf d entries).
Proof.
  intros Hbuild.
  rewrite <-(buildReverseDependencyMap_lookup _ _ d Hbuild).
  apply lookup_total_Some_or_nil. intros l. by apply (build_nonempty entries).
Qed.

Lemma buildReverseDependencyMap_keys_witness :
  buildReverseDependencyMap (map_to_list (packages diamond))
  = Some {[ "Z" := ["Y"; "X"] ]}
  /\ ({[ "Z" := ["Y"; "X"] ]} : gmap string (list string)) !! "Z"
     = if decide (dependentsOf "Z" (map_to_list (packages diamond)) = []) then None
       else Some (dependentsOf "Z" (map_to_list (packages diamond))).
Proof.
  split; [reflexivity|].
  apply (buildReverseDependencyMap_keys (map_to_list (packages diamond))).
  reflexivity.
Defined.

(* --------------------------------------------------------------------- *)
(* The list findRequiredBy returns                                       *)
(* --------------------------------------------------------------------- *)

Section RequiredByList.

Implicit Types (pkg : Package) (deps requiredBy : list string)
         (entries : list (string * Package)).

Lemma findRequiredBy_deps_exact pkgName pkg deps requiredBy requiredBy' :
  findRequiredBy_deps pkgName pkg deps requiredBy = Some requiredBy' ->
  requiredBy'
  = requiredBy
    ++ (if decide (Exists (λ dep, cleanDependencyName dep = Some pkgName) deps)
        then [Name pkg] else []).
Proof.
  induction deps as [|dep deps IH]; cbn [findRequiredBy_deps].
  - intros [= <-]. rewrite decide_False by (by intros ?%Exists_nil).
    by rewrite app_nil_r.
  - destruct (cleanDependencyName dep) as [depName|] eqn:Hclean; [|done].
    destruct (String.eqb_spec depName pkgName) as [->|Hne].
    + intros [= <-]. by rewrite decide_True by (by left).
    + intros ->%IH. f_equal.
      destruct (decide (Exists _ deps)) as [Hex|Hex].
      * by rewrite decide_True by (by right).
      * rewrite decide_False; [done|].
        intros [Hhd|Htl]%Exists_cons; [congruence|done].
Qed.

Lemma findRequiredBy_from_exact pkgName entries requiredBy requiredBy' :
  forEach (fun entry rb =>
             findRequiredBy_deps pkgName entry.2 (Dependencies entry.2) rb)
          entries requiredBy = Some requiredBy' ->
  requiredBy'
  = requiredBy
    ++ ((λ entry, Name entry.2) <$> filter (λ entry, dependsOn pkgName entry.2) entries).
Proof.
  revert requiredBy. induction entries as [|entry entries IH]; intros requiredBy; simpl.
  - intros [= <-]. by rewrite app_nil_r.
  - destruct (findRequiredBy_deps pkgName entry.2 _ requiredBy) as [rb1|] eqn:Hentry;
      [|done].
    apply findRequiredBy_deps_exact in Hentry as ->.
    intros ->%IH. rewrite <-(assoc_L (++)). f_equal.
    rewrite filter_cons. unfold dependsOn at 2.
    by destruct (decide (Exists _ (Dependencies entry.2))).
Qed.

End RequiredByList.

(** X5: when findRequiredBy(N) returns, its result is the Name of the
    records that list a dependency normalising to N, in the order of the
    range over the index, each record contributing its Name once however
    many of its specifiers match. *)
Theorem findRequiredBy_is_filter
        (pkgName : string) (entries : list (string * Package))
        (requiredBy : list string) :
  findRequiredBy pkgName entries = Some requiredBy ->
  requiredBy
  = (λ entry, Name entry.2) <$> filter (λ entry, dependsOn pkgName entry.2) entries.
Proof. by intros ->%findRequiredBy_from_exact. Qed.

Lemma findRequiredBy_is_filter_witness :
  findRequiredBy "Z" (map_to_list (packages diamond)) = Some ["Y"; "X"]
  /\ ["Y"; "X"]
     = (λ entry : string * Package, Name entry.2)
         <$> filter (λ entry, dependsOn "Z" entry.2) (map_to_list (packages diamond)).
Proof.
  split; [reflexivity|].
  apply (findRequiredBy_is_filter "Z" (map_to_list (packages diamond)) ["Y"; "X"]).
  reflexivity.
Defined.

(** X6: on an index that stores every record under its own Name (as
    loadAllPackages builds it), the list findRequiredBy returns has no
    duplicates, names only packages of the index, and is never longer
    than the index. *)
Theorem findRequiredBy_no_duplicates
        (cache : PackageCache) (entries : list (string * Package))
        (pkgName : string) (requiredBy : list string) :
  keyedByName cache ->
  rangeOf cache entries ->
  findRequiredBy pkgName entries = Some requiredBy ->
  NoDup requiredBy
  /\ (forall P, P ∈ requiredBy -> is_Some (packages cache !! P))
  /\ length requiredBy <= size (packages cache).
Proof.
  intros Hkeyed Hrange ->%findRequiredBy_from_exact. simpl.
  assert ((λ entry : string * Package, Name entry.2) <$> entries = entries.*1)
    as Hnames.
  { apply list_fmap_ext. intros i [key pkg] Hin%list_elem_of_lookup_2.
    rewrite Hrange in Hin. apply elem_of_map_to_list in Hin. by apply Hkeyed. }
  assert (NoDup ((λ entry : string * Package, Name entry.2) <$> entries)) as Hnodup.
  { rewrite Hnames, Hrange. apply NoDup_fst_map_to_list. }
  split_and!.
  - apply (sublist_NoDup _ _ Hnodup).
    apply fmap_sublist, sublist_filter.
  - intros P ([key pkg] & -> & [_ Hin]%list_elem_of_filter)%list_elem_of_fmap.
    rewrite Hrange in Hin. apply elem_of_map_to_list in Hin.
    simpl. rewrite (Hkeyed _ _ Hin). by eexists.
  - rewrite length_fmap, <-(rangeOf_length _ _ Hrange). apply length_filter.
Qed.

Lemma findRequiredBy_no_duplicates_witness :
  keyedByName diamond
  /\ findRequiredBy "Z" (map_to_list (packages diamond)) = Some ["Y"; "X"]
  /\ NoDup ["Y"; "X"]
  /\ (forall P, P ∈ ["Y"; "X"] -> is_Some (packages diamond !! P))
  /\ length ["Y"; "X"] <= size (packages diamond).
Proof.
  assert (keyedByName diamond) as Hkeyed.
  { change (map_Forall (λ key pkg, Name pkg = key) (packages diamond)).
    apply (bool_decide_unpack (map_Forall (λ key pkg, Name pkg = key)
                                          (packages diamond))).
    vm_compute. exact I. }
  split; [exact Hkeyed|]. split; [reflexivity|].
  apply (findRequiredBy_no_duplicates diamond (map_to_list (packages diamond)) "Z").
  - exact Hkeyed.
  - unfold rangeOf. reflexivity.
  - reflexivity.
Defined.

(* --------------------------------------------------------------------- *)
(* The chains findInstallationChains returns                             *)
(* --------------------------------------------------------------------- *)

Section Trails.

Variable cache : PackageCache.
Variable reverseDeps : gmap string (list string).

Implicit Types (onPath : gset string) (path rest trail chain : list string).

Local Abbreviation validTrail := (validTrail cache reverseDeps).
Local Abbreviation chainsFrom := (fun fuel => chainsFrom fuel cache reverseDeps).

(* the chains of a call are its path continued by the valid trails *)
Lemma chainsFrom_trails fuel onPath currentPkg path chain :
  chain ∈ chainsFrom fuel onPath currentPkg path
  <-> exists rest,
        chain = path ++ rest /\ length rest < fuel
        /\ validTrail onPath currentPkg rest.
Proof.
  revert onPath currentPkg path.
  induction fuel as [|fuel IH]; intros onPath currentPkg path; simpl.
  { split; [by intros ?%elem_of_nil|]. intros (rest & _ & ? & _). lia. }
  case_decide as Hon.
  { split; [by intros ?%elem_of_nil|]. by intros ([|d rest] & _ & _ & ? & _). }
  destruct (isExplicit cache currentPkg) eqn:Hexp.
  - rewrite list_elem_of_singleton. split.
    + intros ->. exists []. rewrite app_nil_r. simpl. split_and!; [done|lia|done..].
    + intros ([|d rest] & -> & _ & _ & Hrest); [by rewrite app_nil_r|].
      destruct Hrest as [? _]. congruence.
  - rewrite list_elem_of_bind. split.
    + intros (d & (rest & -> & Hlen & Htrail)%IH & Hd).
      exists (d :: rest). rewrite <-(assoc_L (++)). simpl.
      split_and!; [done|lia|done..].
    + intros ([|d rest] & -> & Hlen & _ & Hrest); [simpl in Hrest; congruence|].
      destruct Hrest as (_ & Hd & Htrail). exists d. split; [|done].
      apply IH. exists rest. rewrite <-(assoc_L (++)). simpl in *.
      split_and!; [done|lia|done].
Qed.

Lemma validTrail_properties onPath currentPkg rest :
  validTrail onPath currentPkg rest
  <-> NoDup (currentPkg :: rest)
      /\ (forall x, x ∈ currentPkg :: rest -> x ∉ onPath)
      /\ follows reverseDeps (currentPkg :: rest)
      /\ endsAtRoot cache (currentPkg :: rest).
Proof.
  revert onPath currentPkg.
  induction rest as [|d rest IH]; intros onPath currentPkg; simpl.
  - split.
    + intros [Hon Hexp]. split_and!.
      * apply NoDup_singleton.
      * by intros x ->%list_elem_of_singleton.
      * intros [|? [|? before]] x y after; simpl; [done|done|]. intros [=].
      * exists [], currentPkg. by split_and!.
    + intros (_ & Hon & _ & front & root & Heq & Hexp & _). split.
      * apply Hon. left.
      * destruct front as [|z front]; [by simplify_eq/=|].
        injection Heq as _ Heq. by destruct front.
  - rewrite IH. split.
    + intros (Hon & Hexp & Hd & Hnodup & Hon' & Hfollows
              & front & root & Heq & Hroot & Hfront).
      split_and!.
      * apply NoDup_cons. split; [|done].
        intros Hin. apply Hon' in Hin. set_solver.
      * intros x [->|Hx]%elem_of_cons; [done|]. apply Hon' in Hx. set_solver.
      * intros [|z before] x y after; simpl.
        -- by intros [= <- <- _].
        -- intros [= _ Hsplit]. by eapply Hfollows.
      * exists (currentPkg :: front), root. simpl. rewrite Heq.
        by split_and!; [|done|constructor].
    + intros (Hnodup & Hon & Hfollows & front & root & Heq & Hroot & Hfront).
      apply NoDup_cons in Hnodup as [Hcur Hnodup].
      destruct front as [|z front]; [by injection Heq|].
      simpl in Heq. injection Heq as <- Heq.
      apply Forall_cons in Hfront as [Hexp Hfront].
      split_and!.
      * apply Hon. left.
      * done.
      * by apply (Hfollows [] currentPkg d rest).
      * done.
      * intros x Hx.
        assert (x ∉ onPath) by (apply Hon; by right).
        assert (x ≠ currentPkg) by (by intros ->).
        set_solver.
      * intros before x y after Hsplit.
        apply (Hfollows (currentPkg :: before) x y after). simpl. by rewrite Hsplit.
      * by exists front, root.
Qed.

(* a valid trail only visits names stored in the map *)
Lemma validTrail_stored onPath currentPkg rest :
  validTrail onPath currentPkg rest ->
  Forall (λ d, exists k, d ∈ reverseDeps !!! k) rest.
Proof.
  revert onPath currentPkg.
  induction rest as [|d rest IH]; intros onPath currentPkg; simpl; [done|].
  intros (_ & _ & Hd & Hrest). constructor; [by eexists|by eapply IH].
Qed.

End Trails.

Section InstallChains.

Variable cache : PackageCache.

Implicit Types (entries : list (string * Package))
         (reverseDeps : gmap string (list string))
         (targetPkg : string) (rest chain : list string).

Lemma reverse_eq_inv (l k : list string) : reverse l = k -> l = reverse k.
Proof. intros <-. by rewrite reverse_involutive. Qed.

(* a valid trail from the target, read backwards, is an installation
   chain, and conversely *)
Lemma validTrail_install_chain entries reverseDeps targetPkg rest :
  (forall k, reverseDeps !!! k = dependentsOf k entries) ->
  validTrail cache reverseDeps ∅ targetPkg rest
  <-> isInstallChain cache entries targetPkg (reverse (targetPkg :: rest)).
Proof.
  intros Hrd. rewrite validTrail_properties. unfold isInstallChain.
  set (trail := targetPkg :: rest). split.
  - intros (Hnodup & _ & Hfollows & front & root & Htrail & Hroot & Hfront).
    split_and!.
    + by rewrite reverse_Permutation.
    + by rewrite last_reverse.
    + exists root, (reverse front). rewrite Htrail, reverse_snoc.
      split_and!; [done..|]. by apply Forall_reverse.
    + intros before a b after Hsplit%reverse_eq_inv.
      rewrite <-Hrd. apply (Hfollows (reverse after) b a (reverse before)).
      rewrite Hsplit, reverse_app, !reverse_cons, <-!(assoc_L (++)). done.
  - intros (Hnodup & _ & (root & tail & Hchain%reverse_eq_inv & Hroot & Htail) & Hedges).
    split_and!.
    + by rewrite reverse_Permutation in Hnodup.
    + set_solver.
    + intros before x y after Hsplit. rewrite Hrd.
      apply (Hedges (reverse after) y x (reverse before)).
      rewrite Hsplit, reverse_app, !reverse_cons, <-!(assoc_L (++)). done.
    + exists (reverse tail), root. rewrite Hchain, reverse_cons.
      split_and!; [done..|]. by apply Forall_reverse.
Qed.

End InstallChains.

(* in [rootedCycle], R pulls in M, which pulls in N *)
Lemma rootedCycle_install_chain :
  isInstallChain rootedCycle (map_to_list (packages rootedCycle)) "N" ["R"; "M"; "N"].
Proof.
  destruct (buildReverseDependencyMap (map_to_list (packages rootedCycle)))
    as [reverseDeps|] eqn:Hbuild; [|by vm_compute in Hbuild].
  apply (validTrail_install_chain rootedCycle _ reverseDeps "N" ["M"; "R"]).
  - intros k. by apply buildReverseDependencyMap_lookup.
  - simpl. rewrite !(buildReverseDependencyMap_lookup _ _ _ Hbuild).
    split_and!; try reflexivity; try set_solver;
      vm_compute; repeat first [apply list_elem_of_here | apply list_elem_of_further].
Qed.

(* an installation chain of the target is among the chains of a call that
   returned *)
Lemma install_chain_found
      (cache : PackageCache) (entries : list (string * Package))
      (targetPkg : string) (fuel : nat) (chains : list InstallChain)
      (chain : list string) :
  length entries + 2 <= fuel ->
  findInstallationChains fuel targetPkg cache entries = Done chains ->
  isInstallChain cache entries targetPkg chain ->
  chain ∈ chains.
Proof.
  intros Hfuel (reverseDeps & Hbuild & ->)%findInstallationChains_Done Hchain.
  assert (forall k, reverseDeps !!! k = dependentsOf k entries) as Hrd
    by (intros k; by apply buildReverseDependencyMap_lookup).
  assert (exists rest, chain = reverse (targetPkg :: rest)) as [rest ->].
  { destruct Hchain as (_ & Hlast & _).
    rewrite <-head_reverse in Hlast.
    destruct (reverse chain) as [|x rest] eqn:Hrev; simplify_eq/=.
    exists rest. by apply reverse_eq_inv. }
  apply (validTrail_install_chain cache entries reverseDeps) in Hchain; [|done].
  apply list_elem_of_fmap. exists (targetPkg :: rest). split; [done|].
  apply chainsFrom_trails. exists rest. split_and!; [done| |done].
  assert (length rest <= length ((λ entry : string * Package, Name entry.2) <$> entries))
    as Hlen; [|rewrite length_fmap in Hlen; lia].
  apply submseteq_length, NoDup_submseteq.
  - apply validTrail_properties in Hchain as (Hnodup & _).
    by apply NoDup_cons in Hnodup as [_ ?].
  - intros d Hd. apply validTrail_stored in Hchain.
    rewrite Forall_forall in Hchain. destruct (Hchain d Hd) as [k Hk].
    rewrite Hrd in Hk.
    apply elem_of_dependentsOf in Hk as (entry & Hentry & -> & _).
    apply list_elem_of_fmap. by exists entry.
Qed.

(** X7: every chain findInstallationChains returns is an installation
    chain of the target: it starts at an explicitly installed package,
    holds no other explicitly installed package, ends at the target,
    repeats no package, and every package of it lists the next one among
    its dependencies (some specifier of a record with that Name
    normalises to the next name). *)
Theorem returned_chains_are_install_chains
        (cache : PackageCache) (entries : list (string * Package))
        (targetPkg : string) (fuel : nat) (chains : list InstallChain)
        (chain : list string) :
  findInstallationChains fuel targetPkg cache entries = Done chains ->
  chain ∈ chains ->
  isInstallChain cache entries targetPkg chain.
Proof.
  intros (reverseDeps & Hbuild & ->)%findInstallationChains_Done.
  intros (trail & -> & (rest & -> & _ & Htrail)%chainsFrom_trails)%list_elem_of_fmap.
  apply (validTrail_install_chain cache entries reverseDeps); [|done].
  intros k. by apply buildReverseDependencyMap_lookup.
Qed.

Lemma returned_chains_are_install_chains_witness :
  findInstallationChains 5 "N" rootedCycle (map_to_list (packages rootedCycle))
  = Done [["R"; "M"; "N"]]
  /\ isInstallChain rootedCycle (map_to_list (packages rootedCycle)) "N" ["R"; "M"; "N"].
Proof.
  split; [reflexivity|].
  apply (returned_chains_are_install_chains
           rootedCycle (map_to_list (packages rootedCycle)) "N" 5 [["R"; "M"; "N"]]).
  - reflexivity.
  - apply list_elem_of_here.
Defined.

(** X8: on an index none of whose dependency specifiers makes
    buildReverseDependencyMap panic, findInstallationChains returns and
    misses no chain: with the recursion bound of the model above the
    number of packages plus one, every installation chain of the target
    (simple, from an explicitly installed root through packages that are
    not explicit, each listing the next among its dependencies) is among
    the chains returned. *)
Theorem install_chains_are_returned
        (cache : PackageCache) (entries : list (string * Package))
        (targetPkg : string) (fuel : nat) (chain : list string) :
  length entries + 2 <= fuel ->
  allCleanable entries ->
  isInstallChain cache entries targetPkg chain ->
  exists chains,
    findInstallationChains fuel targetPkg cache entries = Done chains
    /\ chain ∈ chains.
Proof.
  intros Hfuel Hclean Hchain.
  destruct (findInstallationChains_returns fuel targetPkg cache entries Hfuel Hclean)
    as [chains Hfind].
  exists chains. split; [done|]. by eapply install_chain_found.
Qed.

Lemma install_chains_are_returned_witness :
  exists chains,
    findInstallationChains 5 "N" rootedCycle (map_to_list (packages rootedCycle))
    = Done chains
    /\ ["R"; "M"; "N"] ∈ chains.
Proof.
  apply (install_chains_are_returned
           rootedCycle (map_to_list (packages rootedCycle)) "N" 5 ["R"; "M"; "N"]).
  - vm_compute. lia.
  - vm_compute. repeat constructor; by eexists.
  - exact rootedCycle_install_chain.
Defined.

Section DirectDependents.

Variable cache : PackageCache.

Implicit Types (entries : list (string * Package))
         (reverseDeps : gmap string (list string)).

(* a call on an explicitly installed package returns at once *)
Lemma dfsBackwards_explicit_returns fuel reverseDeps currentPkg path st :
  isExplicit cache currentPkg = true ->
  is_Some (dfsBackwards (S fuel) cache reverseDeps currentPkg path st).
Proof.
  intros Hexp. rewrite dfsBackwards_unfold, Hexp.
  by destruct (isVisited st.1 currentPkg).
Qed.

Lemma findInstallationChains_FuelExhausted fuel targetPkg entries :
  findInstallationChains fuel targetPkg cache entries = FuelExhausted ->
  exists reverseDeps,
    buildReverseDependencyMap entries = Some reverseDeps
    /\ dfsBackwards fuel cache reverseDeps targetPkg [targetPkg] (∅, []) = None.
Proof.
  unfold findInstallationChains.
  destruct (buildReverseDependencyMap entries) as [reverseDeps|]; [|done].
  destruct (dfsBackwards _ _ _ _ _ _) as [[visited found]|] eqn:Hdfs; [done|].
  by exists reverseDeps.
Qed.

Lemma chainsFrom_unfold fuel reverseDeps onPath currentPkg path :
  chainsFrom (S fuel) cache reverseDeps onPath currentPkg path
  = if decide (currentPkg ∈ onPath) then []
    else if isExplicit cache currentPkg then [path]
         else (reverseDeps !!! currentPkg) ≫= (λ dependentPkg,
                chainsFrom fuel cache reverseDeps ({[currentPkg]} ∪ onPath)
                           dependentPkg (path ++ [dependentPkg])).
Proof. reflexivity. Qed.

Lemma bind_singletons {A B : Type} (f : A -> list B) (g : A -> B) (l : list A) :
  (forall x, x ∈ l -> f x = [g x]) -> l ≫= f = g <$> l.
Proof.
  induction l as [|x l IH]; intros Hf; simpl; [done|].
  rewrite (Hf x) by left. simpl. f_equal. apply IH. intros y Hy. apply Hf. by right.
Qed.

End DirectDependents.

(** X9: on an index none of whose dependency specifiers makes
    buildReverseDependencyMap panic, when the target is not explicitly
    installed (or is absent from the index) and every package that
    depends on it is explicitly installed, findInstallationChains returns
    one two-element chain [dependent, target] per dependency specifier
    normalising to the target, in the order of the range over the index;
    a target nothing depends on gets no chain. *)
Theorem chains_of_explicit_dependents
        (cache : PackageCache) (entries : list (string * Package))
        (targetPkg : string) (fuel : nat) :
  allCleanable entries ->
  isExplicit cache targetPkg = false ->
  (forall d, d ∈ dependentsOf targetPkg entries -> isExplicit cache d = true) ->
  2 <= fuel ->
  findInstallationChains fuel targetPkg cache entries
  = Done ((λ d, [d; targetPkg]) <$> dependentsOf targetPkg entries).
Proof.
  intros Hclean Htarget Hdeps Hfuel.
  destruct fuel as [|[|fuel]]; [lia..|].
  destruct (findInstallationChains _ targetPkg cache entries) as [chains| |] eqn:Hfind.
  - apply findInstallationChains_Done in Hfind as (reverseDeps & Hbuild & ->).
    f_equal. rewrite chainsFrom_unfold.
    rewrite decide_False by set_solver. rewrite Htarget.
    rewrite (buildReverseDependencyMap_lookup _ _ targetPkg Hbuild).
    rewrite (bind_singletons _ (λ d, [targetPkg; d])).
    + rewrite <-list_fmap_compose. by apply list_fmap_ext.
    + intros d Hd. rewrite chainsFrom_unfold.
      rewrite decide_False; [by rewrite (Hdeps d Hd)|].
      intros [->%elem_of_singleton|[]%elem_of_empty]%elem_of_union.
      specialize (Hdeps _ Hd). congruence.
  - apply findInstallationChains_Panicked in Hfind.
    apply buildReverseDependencyMap_total in Hclean as [rd Hrd]. congruence.
  - apply findInstallationChains_FuelExhausted in Hfind as (reverseDeps & Hbuild & Hdfs).
    rewrite dfsBackwards_unfold in Hdfs. simpl in Hdfs.
    unfold isVisited in Hdfs. rewrite lookup_empty, Htarget in Hdfs. simpl in Hdfs.
    destruct (explore_total cache reverseDeps (S fuel) [targetPkg]
                (reverseDeps !!! targetPkg) (<[targetPkg:=true]> ∅, []))
      as [st1 Hst1].
    + intros d path' st1 _ Hd. apply dfsBackwards_explicit_returns, Hdeps.
      by rewrite <-(buildReverseDependencyMap_lookup _ _ targetPkg Hbuild).
    + by rewrite Hst1 in Hdfs.
Qed.

Lemma chains_of_explicit_dependents_witness :
  findInstallationChains 2 "Z" diamond (map_to_list (packages diamond))
  = Done ((λ d, [d; "Z"]) <$> dependentsOf "Z" (map_to_list (packages diamond))).
Proof.
  apply (chains_of_explicit_dependents diamond (map_to_list (packages diamond)) "Z" 2).
  - vm_compute. repeat constructor; by eexists.
  - reflexivity.
  - intros d Hd. vm_compute in Hd.
    repeat (apply elem_of_cons in Hd as [->|Hd]; [reflexivity|]).
    by apply elem_of_nil in Hd.
  - lia.
Defined.

(** X10: a call of dfsBackwards that returns leaves the visited map
    reading as it did before the call, for every key (the deferred reset
    undoes the mark of the call and every nested call has done the same),
    and only appends to the chains found so far. *)
Theorem dfsBackwards_restores_visited
        (cache : PackageCache) (reverseDeps : gmap string (list string))
        (fuel : nat) (currentPkg : string) (path : list string)
        (st st' : gmap string bool * list InstallChain) :
  dfsBackwards fuel cache reverseDeps currentPkg path st = Some st' ->
  (forall k, isVisited st'.1 k = isVisited st.1 k)
  /\ st.2 `prefix_of` st'.2.
Proof.
  intros [Hvisited Hchains]%dfsBackwards_returnsAs. split.
  - intros k.
    pose proof (elem_of_visitedSet st.1 k) as H1.
    pose proof (elem_of_visitedSet st'.1 k) as H2.
    rewrite Hvisited in H2.
    destruct (isVisited st.1 k), (isVisited st'.1 k); naive_solver.
  - rewrite Hchains. by apply prefix_app_r.
Qed.

Lemma dfsBackwards_restores_visited_witness :
  dfsBackwards 5 rootedCycle {[ "M" := ["N"; "R"]; "N" := ["M"] ]} "N" ["N"]
               ({[ "Q" := true ]}, [["Q"]])
  = Some ({[ "Q" := true; "N" := false; "M" := false; "R" := false ]},
          [["Q"]; ["N"; "M"; "R"]])
  /\ (forall k,
        isVisited {[ "Q" := true; "N" := false; "M" := false; "R" := false ]} k
        = isVisited {[ "Q" := true ]} k)
  /\ [["Q"]] `prefix_of` [["Q"]; ["N"; "M"; "R"]].
Proof.
  split; [reflexivity|].
  refine (dfsBackwards_restores_visited
            rootedCycle {[ "M" := ["N"; "R"]; "N" := ["M"] ]} 5 "N" ["N"]
            (_, _) (_, _) _).
  reflexivity.
Defined.

(* --------------------------------------------------------------------- *)
(* reverseChain                                                          *)
(* --------------------------------------------------------------------- *)

(** X11: reverseChain reverses every chain, the empty chain and chains of
    one element included (the loop then does no swap); it keeps the
    length, and applied twice it gives the chain back. *)
Theorem reverseChain_reverses (chain : list string) :
  reverseChain chain = reverse chain
  /\ length (reverseChain chain) = length chain
  /\ reverseChain (reverseChain chain) = chain.
Proof.
  rewrite !reverseChain_reverse. split_and!; [done|apply length_reverse|].
  apply reverse_involutive.
Qed.

(* --------------------------------------------------------------------- *)
(* What the traversal reads of the index                                 *)
(* --------------------------------------------------------------------- *)

Section Frame.

Lemma forEach_ext {A S : Type} (body1 body2 : A -> S -> option S) (l : list A) (s : S) :
  (forall x t, body1 x t = body2 x t) -> forEach body1 l s = forEach body2 l s.
Proof.
  intros Hbody. revert s. induction l as [|x l IH]; intros s; simpl; [done|].
  rewrite Hbody. destruct (body2 x s); [apply IH|done].
Qed.

Lemma addDependent_Name (pkg1 pkg2 : Package) (dep : string)
      (reverseDeps : gmap string (list string)) :
  Name pkg1 = Name pkg2 ->
  addDependent pkg1 dep reverseDeps = addDependent pkg2 dep reverseDeps.
Proof. unfold addDependent. by intros ->. Qed.

Lemma buildReverseDependencyMap_sameEdges (entries1 entries2 : list (string * Package)) :
  Forall2 sameEdges entries1 entries2 ->
  buildReverseDependencyMap entries1 = buildReverseDependencyMap entries2.
Proof.
  unfold buildReverseDependencyMap. generalize (∅ : gmap string (list string)).
  intros rd Hsame. revert rd.
  induction Hsame as [|entry1 entry2 entries1 entries2 [Hname Hdeps] _ IH];
    intros rd; simpl; [done|].
  rewrite Hdeps.
  rewrite (forEach_ext (addDependent entry1.2) (addDependent entry2.2))
    by (intros dep t; by apply addDependent_Name).
  destruct (forEach _ _ rd); [apply IH|done].
Qed.

Lemma dfsBackwards_isExplicit (cache1 cache2 : PackageCache)
      (reverseDeps : gmap string (list string)) (fuel : nat)
      (currentPkg : string) (path : list string)
      (st : gmap string bool * list InstallChain) :
  (forall k, isExplicit cache1 k = isExplicit cache2 k) ->
  dfsBackwards fuel cache1 reverseDeps currentPkg path st
  = dfsBackwards fuel cache2 reverseDeps currentPkg path st.
Proof.
  intros Hexp. revert currentPkg path st.
  induction fuel as [|fuel IH]; intros currentPkg path st; [done|].
  rewrite !dfsBackwards_unfold, Hexp. unfold explore.
  by rewrite (forEach_ext _ _ _ _ (λ d t, IH d (path ++ [d]) t)).
Qed.

End Frame.

(** X12: findInstallationChains reads only the Name, the Dependencies and
    the InstallReason of the records: on two indexes whose ranges agree,
    entry by entry, on Name and Dependencies and whose packages are
    explicit under the same names, it has the same outcome.  In
    particular the RequiredBy written by getPackageInfo does not change
    the chains. *)
Theorem findInstallationChains_reads_edges_only
        (cache1 cache2 : PackageCache) (entries1 entries2 : list (string * Package))
        (targetPkg : string) (fuel : nat) :
  Forall2 sameEdges entries1 entries2 ->
  (forall k, isExplicit cache1 k = isExplicit cache2 k) ->
  findInstallationChains fuel targetPkg cache1 entries1
  = findInstallationChains fuel targetPkg cache2 entries2.
Proof.
  intros Hedges Hexp. unfold findInstallationChains.
  rewrite (buildReverseDependencyMap_sameEdges _ _ Hedges).
  destruct (buildReverseDependencyMap entries2) as [reverseDeps|]; [|done].
  by rewrite (dfsBackwards_isExplicit cache1 cache2 _ _ _ _ _ Hexp).
Qed.

Lemma findInstallationChains_reads_edges_only_witness :
  findInstallationChains 5 "C" pulledIn (map_to_list (packages pulledIn))
  = findInstallationChains 5 "C" queriedB (map_to_list (packages queriedB)).
Proof.
  apply (findInstallationChains_reads_edges_only pulledIn queriedB).
  - vm_compute. repeat constructor.
  - intros k. unfold isExplicit.
    change (packages queriedB)
      with (<["B" := dependencyPkgRequiredBy "B" ["C"] ["A"]]> (packages pulledIn)).
    destruct (decide (k = "B")) as [->|Hne]; [reflexivity|].
    rewrite lookup_insert_ne by done. reflexivity.
Defined.

(* --------------------------------------------------------------------- *)
(* getExplicitlyInstalledPackages                                        *)
(* --------------------------------------------------------------------- *)

Section ExplicitPackages.

Implicit Types (entries : list (string * Package)) (explicitPkgs : list string).

Lemma getExplicit_from entries explicitPkgs :
  foldl (fun explicitPkgs entry =>
           if String.eqb (InstallReason entry.2) ExplicitlyInstalled
           then explicitPkgs ++ [Name entry.2]
           else explicitPkgs)
        explicitPkgs entries
  = explicitPkgs
    ++ ((λ entry, Name entry.2)
          <$> filter (λ entry, InstallReason entry.2 = ExplicitlyInstalled) entries).
Proof.
  revert explicitPkgs. induction entries as [|entry entries IH]; intros explicitPkgs;
    simpl; [by rewrite app_nil_r|].
  rewrite IH, filter_cons.
  destruct (String.eqb_spec (InstallReason entry.2) ExplicitlyInstalled) as [Heq|Hne].
  - rewrite decide_True by done. by rewrite <-(assoc_L (++)).
  - by rewrite decide_False by done.
Qed.

Lemma getExplicitlyInstalledPackages_filter entries :
  getExplicitlyInstalledPackages entries
  = (λ entry, Name entry.2)
      <$> filter (λ entry, InstallReason entry.2 = ExplicitlyInstalled) entries.
Proof. unfold getExplicitlyInstalledPackages. by rewrite getExplicit_from. Qed.

End ExplicitPackages.

(** X13: on an index that stores every record under its own Name,
    getExplicitlyInstalledPackages returns, without duplicates, exactly
    the names under which dfsBackwards finds an explicitly installed
    package; so the first package of every chain findInstallationChains
    returns is one of them. *)
Theorem getExplicitlyInstalledPackages_are_roots
        (cache : PackageCache) (entries : list (string * Package)) :
  keyedByName cache ->
  rangeOf cache entries ->
  NoDup (getExplicitlyInstalledPackages entries)
  /\ (forall P, P ∈ getExplicitlyInstalledPackages entries <-> isExplicit cache P = true)
  /\ (forall fuel targetPkg chains chain,
         findInstallationChains fuel targetPkg cache entries = Done chains ->
         chain ∈ chains ->
         exists root, head chain = Some root
                      /\ root ∈ getExplicitlyInstalledPackages entries).
Proof.
  intros Hkeyed Hrange. rewrite getExplicitlyInstalledPackages_filter.
  assert (forall P,
             P ∈ (λ entry : string * Package, Name entry.2)
                   <$> filter (λ entry, InstallReason entry.2 = ExplicitlyInstalled)
                              entries
             <-> isExplicit cache P = true) as Hroots.
  { intros P. unfold isExplicit. rewrite list_elem_of_fmap. split.
    - intros ([key pkg] & -> & [Hexp Hin]%list_elem_of_filter).
      rewrite Hrange in Hin. apply elem_of_map_to_list in Hin. simpl in *.
      rewrite (Hkeyed _ _ Hin), Hin. by apply String.eqb_eq.
    - destruct (packages cache !! P) as [pkg|] eqn:HP; [|done].
      intros Hexp%String.eqb_eq. exists (P, pkg). simpl.
      split; [by rewrite (Hkeyed _ _ HP)|].
      apply list_elem_of_filter. split; [done|].
      rewrite Hrange. by apply elem_of_map_to_list. }
  split_and!; [|done|].
  - assert ((λ entry : string * Package, Name entry.2) <$> entries = entries.*1)
      as Hnames.
    { apply list_fmap_ext. intros i [key pkg] Hin%list_elem_of_lookup_2.
      rewrite Hrange in Hin. apply elem_of_map_to_list in Hin. by apply Hkeyed. }
    assert (NoDup ((λ entry : string * Package, Name entry.2) <$> entries)) as Hnodup.
    { rewrite Hnames, Hrange. apply NoDup_fst_map_to_list. }
    apply (sublist_NoDup _ _ Hnodup), fmap_sublist, sublist_filter.
  - intros fuel targetPkg chains chain (rd & Hbuild & ->)%findInstallationChains_Done.
    intros (trail & -> & (rest & -> & _ & Htrail)%chainsFrom_trails)%list_elem_of_fmap.
    apply validTrail_properties in Htrail as (_ & _ & _ & front & root & Heq & Hroot & _).
    exists root. change ([targetPkg] ++ rest) with (targetPkg :: rest).
    rewrite Heq, reverse_snoc. split; [done|].
    by apply Hroots.
Qed.

Lemma getExplicitlyInstalledPackages_are_roots_witness :
  NoDup (getExplicitlyInstalledPackages (map_to_list (packages diamond)))
  /\ (forall P, P ∈ getExplicitlyInstalledPackages (map_to_list (packages diamond))
                <-> isExplicit diamond P = true)
  /\ (forall fuel targetPkg chains chain,
         findInstallationChains fuel targetPkg diamond (map_to_list (packages diamond))
         = Done chains ->
         chain ∈ chains ->
         exists root, head chain = Some root
                      /\ root ∈ getExplicitlyInstalledPackages
                                  (map_to_list (packages diamond))).
Proof.
  apply (getExplicitlyInstalledPackages_are_roots diamond).
  - change (map_Forall (λ key pkg, Name pkg = key) (packages diamond)).
    apply (bool_decide_unpack (map_Forall (λ key pkg, Name pkg = key)
                                          (packages diamond))).
    vm_compute. exact I.
  - unfold rangeOf. reflexivity.
Defined.

(* --------------------------------------------------------------------- *)
(* parseDescFile                                                         *)
(* --------------------------------------------------------------------- *)

Section Parsing.

Variable TrimSpace : string -> string.

Implicit Types (st : Package * string) (text : string) (lines : list string).

(* what one line can do to the record *)
Lemma scanLine_record st text :
  (scanLine TrimSpace st text).1 = st.1
  \/ (TrimSpace text <> ""
      /\ ((scanLine TrimSpace st text).1 = setName st.1 (TrimSpace text)
          \/ (scanLine TrimSpace st text).1 = setVersion st.1 (TrimSpace text)
          \/ (scanLine TrimSpace st text).1
             = setInstallReason st.1 InstalledAsDependency
          \/ (scanLine TrimSpace st text).1
             = appendDependency st.1 (TrimSpace text))).
Proof.
  unfold scanLine.
  destruct (GoStrings.HasPrefix _ _ && GoStrings.HasSuffix _ _); [by left|].
  destruct (String.eqb_spec (TrimSpace text) "") as [Hempty|Hline]; [by left|].
  destruct (String.eqb st.2 "NAME"); [right; auto|].
  destruct (String.eqb st.2 "VERSION"); [right; auto|].
  destruct (String.eqb st.2 "REASON").
  { destruct (String.eqb (TrimSpace text) "1"); [right; auto 6|by left]. }
  destruct (String.eqb st.2 "DEPENDS"); [right; auto 6|by left].
Qed.


Lemma scanLine_filledFrom lines st text :
  text ∈ lines ->
  filledFrom TrimSpace lines st.1 ->
  filledFrom TrimSpace lines (scanLine TrimSpace st text).1.
Proof.
  intros Hin ([Hreason [Hrb Hdeps]] & Hfrom & Hname).
  destruct (scanLine_record st text) as [-> | [Hline [-> | [-> | [-> | ->] ] ] ] ];
    unfold filledFrom, freshlyParsed; simpl.
  - done.
  - split_and!; [done..|]. right. by exists text.
  - done.
  - split_and!; [by right|done..].
  - split_and!; [done|done| | |done].
    + apply Forall_app. split; [done|]. by constructor.
    + apply Forall_app. split; [done|]. constructor; [|done]. by exists text.
Qed.

Lemma foldl_scanLine_filledFrom lines scanned st :
  (forall text, text ∈ scanned -> text ∈ lines) ->
  filledFrom TrimSpace lines st.1 ->
  filledFrom TrimSpace lines (foldl (scanLine TrimSpace) st scanned).1.
Proof.
  revert st. induction scanned as [|text scanned IH]; intros st Hsub Hst; simpl; [done|].
  apply IH.
  - intros t Ht. apply Hsub. by right.
  - apply scanLine_filledFrom; [|done]. apply Hsub. left.
Qed.

(* outside every section a line changes nothing *)
Lemma scanLine_no_section pkg text :
  isHeader (TrimSpace text) = false ->
  scanLine TrimSpace (pkg, "") text = (pkg, "").
Proof.
  unfold scanLine, isHeader. intros ->. simpl.
  by destruct (String.eqb (TrimSpace text) "").
Qed.

Lemma parseDescFile_filledFrom lines scanErr :
  exists pkg,
    parseDescFile TrimSpace (Readable lines scanErr) = (Some pkg, scanErr)
    /\ filledFrom TrimSpace lines pkg.
Proof.
  eexists. split; [reflexivity|].
  apply foldl_scanLine_filledFrom; [done|].
  unfold filledFrom, freshlyParsed. simpl. split_and!; auto.
Qed.

End Parsing.

(** X14: whatever the lines of a desc file that can be opened,
    parseDescFile returns a record together with the scanner's error, and
    in that record InstallReason is "Explicitly installed" or "Installed
    as a dependency", RequiredBy is empty, no dependency specifier is the
    empty string, and every specifier and a non-empty Name are trimmed
    lines of the file. *)
Theorem parseDescFile_record
        (TrimSpace : string -> string) (lines : list string) (scanErr : option error) :
  exists pkg,
    parseDescFile TrimSpace (Readable lines scanErr) = (Some pkg, scanErr)
    /\ freshlyParsed pkg
    /\ Forall (λ dep, exists text, text ∈ lines /\ dep = TrimSpace text)
              (Dependencies pkg)
    /\ (Name pkg = "" \/ exists text, text ∈ lines /\ Name pkg = TrimSpace text).
Proof.
  destruct (parseDescFile_filledFrom TrimSpace lines scanErr) as (pkg & Hparse & Hfilled).
  exists pkg. split; [done|]. exact Hfilled.
Qed.

(** X15: lines that come before the first section header are ignored: a
    desc file none of whose trimmed lines starts and ends with '%' is
    parsed to the initial record, with empty Name and Version, no
    dependencies and InstallReason "Explicitly installed". *)
Theorem parseDescFile_without_header
        (TrimSpace : string -> string) (lines : list string) (scanErr : option error) :
  (forall text, text ∈ lines -> isHeader (TrimSpace text) = false) ->
  parseDescFile TrimSpace (Readable lines scanErr) = (Some emptyRecord, scanErr).
Proof.
  intros Hlines. simpl. do 2 f_equal. fold emptyRecord.
  assert (foldl (scanLine TrimSpace) (emptyRecord, "") lines = (emptyRecord, ""))
    as ->; [|done].
  induction lines as [|text lines IH]; simpl; [done|].
  rewrite scanLine_no_section by (apply Hlines; left).
  apply IH. intros t Ht. apply Hlines. by right.
Qed.

Lemma parseDescFile_without_header_witness :
  (forall text, text ∈ ["bash"; " 5.2-1 "; "%NAME"] ->
                isHeader (GoStrings.TrimSpaceASCII text) = false)
  /\ parseDescFile GoStrings.TrimSpaceASCII (Readable ["bash"; " 5.2-1 "; "%NAME"] None)
     = (Some emptyRecord, None).
Proof.
  assert (forall text, text ∈ ["bash"; " 5.2-1 "; "%NAME"] ->
                       isHeader (GoStrings.TrimSpaceASCII text) = false) as Hlines.
  { intros text Htext.
    repeat (apply elem_of_cons in Htext as [->|Htext]; [reflexivity|]).
    by apply elem_of_nil in Htext. }
  split; [exact Hlines|].
  apply (parseDescFile_without_header GoStrings.TrimSpaceASCII
           ["bash"; " 5.2-1 "; "%NAME"] None Hlines).
Defined.

(* --------------------------------------------------------------------- *)
(* loadAllPackages                                                       *)
(* --------------------------------------------------------------------- *)

Section LoadedIndex.

Variable TrimSpace : string -> string.

Implicit Types (index : gmap string Package) (entry : DirEntry)
         (entries : list DirEntry).

Lemma parsesTo_freshlyParsed entry pkg :
  parsesTo TrimSpace entry pkg -> freshlyParsed pkg.
Proof.
  intros [_ Hparse]. destruct (desc entry) as [err|lines scanErr]; [done|].
  destruct (parseDescFile_filledFrom TrimSpace lines scanErr) as (p & Hp & Hfilled & _).
  rewrite Hp in Hparse. by injection Hparse as <- _.
Qed.

Lemma loadEntry_not_loadable index entry :
  ~ isLoadable TrimSpace entry -> loadEntry TrimSpace index entry = index.
Proof.
  unfold isLoadable, loadEntry. intros Hno.
  destruct (IsDir entry); [|done]. simpl.
  destruct (parseDescFile TrimSpace (desc entry)) as [[pkg|] [err|]]; try done.
  by destruct Hno.
Qed.

Lemma foldl_loadEntry_filter entries index :
  foldl (loadEntry TrimSpace) index entries
  = foldl (loadEntry TrimSpace) index (filter (isLoadable TrimSpace) entries).
Proof.
  revert index. induction entries as [|entry entries IH]; intros index; [done|].
  rewrite filter_cons. simpl.
  destruct (decide (isLoadable TrimSpace entry)) as [Hload|Hload]; simpl; [apply IH|].
  rewrite loadEntry_not_loadable by done. apply IH.
Qed.

End LoadedIndex.

(** X16: every record of the index loadAllPackages builds is as
    parseDescFile left it: its RequiredBy is empty, its InstallReason is
    one of the two reasons, and none of its dependency specifiers is the
    empty string. *)
Theorem loaded_records_are_fresh
        (TrimSpace : string -> string) (entries : list DirEntry)
        (cache : PackageCache) (key : string) (pkg : Package) :
  loadAllPackages TrimSpace (inl entries) = inl cache ->
  packages cache !! key = Some pkg ->
  freshlyParsed pkg.
Proof.
  simpl. intros [= <-]. simpl. intros Hkey.
  apply foldl_loadEntry_keys in Hkey as [_ [Hempty|(entry & _ & Hparse)]].
  - by rewrite lookup_empty in Hempty.
  - by eapply parsesTo_freshlyParsed.
  - intros k p. by rewrite lookup_empty.
Qed.

Lemma loaded_records_are_fresh_witness :
  loadAllPackages GoStrings.TrimSpaceASCII (inl [bashEntry; namelessEntry])
  = inl loadedSample
  /\ freshlyParsed
       (mkPackage "bash" "5.2-1" InstalledAsDependency ["readline>=8.0"; "glibc"] []).
Proof.
  split; [reflexivity|].
  apply (loaded_records_are_fresh GoStrings.TrimSpaceASCII [bashEntry; namelessEntry]
                                  loadedSample "bash"); reflexivity.
Defined.

(** X17: entries of the store that are not directories, or whose desc
    file cannot be opened or is not scanned to its end, have no effect on
    the index: loadAllPackages builds the same index from the store
    without them. *)
Theorem loadAllPackages_skips_unreadable
        (TrimSpace : string -> string) (entries : list DirEntry) :
  loadAllPackages TrimSpace (inl entries)
  = loadAllPackages TrimSpace (inl (filter (isLoadable TrimSpace) entries)).
Proof. simpl. do 2 f_equal. apply foldl_loadEntry_filter. Qed.

(** X18: when several directories hold a record of the same Name, the
    index keeps the one met last: a directory parsed without error whose
    Name no later directory repeats is the record stored under that
    Name. *)
Theorem loadAllPackages_last_wins
        (TrimSpace : string -> string) (before after : list DirEntry)
        (entry : DirEntry) (pkg : Package) (cache : PackageCache) :
  parsesTo TrimSpace entry pkg ->
  (forall later p, later ∈ after -> parsesTo TrimSpace later p -> Name p <> Name pkg) ->
  loadAllPackages TrimSpace (inl (before ++ entry :: after)) = inl cache ->
  packages cache !! Name pkg = Some pkg.
Proof.
  intros Hparse Hafter. simpl. intros [= <-]. simpl.
  rewrite foldl_app. simpl.
  rewrite foldl_loadEntry_other by done.
  destruct (loadEntry_cases TrimSpace (foldl (loadEntry TrimSpace) ∅ before) entry)
    as [(p & [_ Hp] & ->)|[Hno _]].
  - destruct Hparse as [_ Hparse]. rewrite Hparse in Hp. injection Hp as <-.
    apply lookup_insert_eq.
  - by destruct (Hno pkg).
Qed.

Lemma loadAllPackages_last_wins_witness :
  parsesTo GoStrings.TrimSpaceASCII bashUpgrade
           (mkPackage "bash" "5.3-1" ExplicitlyInstalled [] [])
  /\ packages
       (mkCache (foldl (loadEntry GoStrings.TrimSpaceASCII) ∅
                       ([bashEntry] ++ bashUpgrade :: [namelessEntry])))
     !! "bash"
     = Some (mkPackage "bash" "5.3-1" ExplicitlyInstalled [] []).
Proof.
  split; [split; reflexivity|].
  apply (loadAllPackages_last_wins
           GoStrings.TrimSpaceASCII [bashEntry] [namelessEntry] bashUpgrade
           (mkPackage "bash" "5.3-1" ExplicitlyInstalled [] [])).
  - split; reflexivity.
  - intros later p ->%list_elem_of_singleton [_ Hp].
    vm_compute in Hp. injection Hp as <-. discriminate.
  - reflexivity.
Defined.

(* --------------------------------------------------------------------- *)
(* getPackageInfo and the query                                          *)
(* --------------------------------------------------------------------- *)

(** X19: a query for a package of the index returns.  On an index none of
    whose dependency specifiers makes cleanDependencyName panic, whatever
    the orders of the two ranges (the second over the index as
    getPackageInfo leaves it), and with the recursion bound of the model
    above the number of packages plus one, the query neither panics nor
    runs out of its bound: it hands to displayPackageInfo the queried
    record with the RequiredBy field holding exactly the names of the
    records of the index that depend on the package, and exactly the
    installation chains of the package. *)
Theorem query_returns
        (fuel : nat) (pkgName : string) (cache : PackageCache)
        (entries1 entries2 : list (string * Package)) (pkg : Package) :
  rangeOf cache entries1 ->
  allCleanable entries1 ->
  packages cache !! pkgName = Some pkg ->
  (forall cache' info,
      getPackageInfo pkgName cache entries1 = Some (cache', info) ->
      rangeOf cache' entries2) ->
  size (packages cache) + 2 <= fuel ->
  exists requiredBy chains,
    runQuery fuel pkgName cache entries1 entries2
    = Done (mkCache (<[pkgName := setRequiredBy pkg requiredBy]> (packages cache)),
            inl (setRequiredBy pkg requiredBy, chains))
    /\ (forall P,
          P ∈ requiredBy
          <-> exists key p,
                packages cache !! key = Some p /\ Name p = P /\ dependsOn pkgName p)
    /\ (forall chain,
          chain ∈ chains
          <-> isInstallChain
                (mkCache (<[pkgName := setRequiredBy pkg requiredBy]> (packages cache)))
                entries2 pkgName chain).
Proof.
  intros Hrange1 Hclean Hpkg Hrange2 Hfuel.
  destruct (findRequiredBy_total pkgName _ Hclean) as [requiredBy Hrb].
  set (cache' := mkCache (<[pkgName := setRequiredBy pkg requiredBy]> (packages cache))).
  assert (getPackageInfo pkgName cache entries1
          = Some (cache', inl (setRequiredBy pkg requiredBy))) as Hinfo.
  { unfold getPackageInfo. by rewrite Hpkg, Hrb. }
  specialize (Hrange2 _ _ Hinfo).
  assert (allCleanable entries2) as Hclean2.
  { unfold allCleanable in *. unfold rangeOf in Hrange1, Hrange2.
    rewrite Hrange2. rewrite Hrange1 in Hclean.
    rewrite Forall_forall in Hclean. apply Forall_forall.
    intros [key p] Hin%elem_of_map_to_list. simpl in Hin.
    destruct (decide (key = pkgName)) as [->|Hne].
    - rewrite lookup_insert_eq in Hin. injection Hin as <-. simpl.
      apply (Hclean (pkgName, pkg)). by apply elem_of_map_to_list.
    - rewrite lookup_insert_ne in Hin by done.
      apply (Hclean (key, p)). by apply elem_of_map_to_list. }
  assert (length entries2 + 2 <= fuel) as Hfuel2.
  { rewrite (rangeOf_length cache' entries2 Hrange2). simpl.
    by rewrite map_size_insert_Some by (by eexists). }
  destruct (findInstallationChains_returns fuel pkgName cache' entries2 Hfuel2 Hclean2)
    as [chains Hfind].
  exists requiredBy, chains. split_and!.
  - unfold runQuery. by rewrite Hinfo, Hfind.
  - intros P. rewrite (findRequiredBy_spec _ _ _ Hrb P), elem_of_dependentsOf.
    unfold rangeOf in Hrange1. split.
    + intros ([key p] & Hin & -> & Hdep). exists key, p.
      rewrite Hrange1 in Hin. apply elem_of_map_to_list in Hin.
      split_and!; [done..|]. by apply Exists_exists.
    + intros (key & p & Hkey & <- & Hdep%Exists_exists). exists (key, p).
      split_and!; [|done..]. rewrite Hrange1. by apply elem_of_map_to_list.
  - intros chain. split.
    + apply findInstallationChains_Done in Hfind as (reverseDeps & Hbuild & ->).
      intros (trail & -> & (rest & -> & _ & Htrail)%chainsFrom_trails)%list_elem_of_fmap.
      apply (validTrail_install_chain cache' entries2 reverseDeps); [|done].
      intros k. by apply buildReverseDependencyMap_lookup.
    + by apply (install_chain_found cache' entries2 pkgName fuel).
Qed.

Lemma query_returns_witness :
  exists requiredBy chains,
    runQuery 5 "B" pulledIn (map_to_list (packages pulledIn))
             (map_to_list (packages queriedB))
    = Done (mkCache (<["B" := setRequiredBy (dependencyPkg "B" ["C"]) requiredBy]>
                       (packages pulledIn)),
            inl (setRequiredBy (dependencyPkg "B" ["C"]) requiredBy, chains))
    /\ (forall P,
          P ∈ requiredBy
          <-> exists key p,
                packages pulledIn !! key = Some p /\ Name p = P /\ dependsOn "B" p)
    /\ (forall chain,
          chain ∈ chains
          <-> isInstallChain
                (mkCache (<["B" := setRequiredBy (dependencyPkg "B" ["C"]) requiredBy]>
                            (packages pulledIn)))
                (map_to_list (packages queriedB)) "B" chain).
Proof.
  apply (query_returns 5 "B" pulledIn (map_to_list (packages pulledIn))
           (map_to_list (packages queriedB)) (dependencyPkg "B" ["C"])).
  - unfold rangeOf. reflexivity.
  - vm_compute. repeat constructor; by eexists.
  - reflexivity.
  - intros cache' info Hinfo.
    assert (getPackageInfo "B" pulledIn (map_to_list (packages pulledIn))
            = Some (queriedB, inl (dependencyPkgRequiredBy "B" ["C"] ["A"]))) as Hrun
      by reflexivity.
    rewrite Hrun in Hinfo. injection Hinfo as <- <-. unfold rangeOf. reflexivity.
  - vm_compute. lia.
Defined.

(** X20: getPackageInfo keeps the index keyed by name and changes none of
    its keys; when it finds the package, the record it returns is the
    record the index then holds under the queried name, and its
    RequiredBy is the list findRequiredBy returned. *)
Theorem getPackageInfo_keeps_index_keyed
        (pkgName : string) (cache cache' : PackageCache)
        (entries : list (string * Package)) (result : Package + error) :
  keyedByName cache ->
  getPackageInfo pkgName cache entries = Some (cache', result) ->
  keyedByName cache'
  /\ dom (packages cache') = dom (packages cache)
  /\ (forall pkg, result = inl pkg ->
        packages cache' !! pkgName = Some pkg
        /\ Name pkg = pkgName
        /\ findRequiredBy pkgName entries = Some (RequiredBy pkg)).
Proof.
  intros Hkeyed Hinfo.
  destruct (packages cache !! pkgName) as [queried|] eqn:Hqueried.
  - pose proof (getPackageInfo_found _ _ _ _ _ _ Hqueried Hinfo)
      as (requiredBy & Hrb & Hres & Hcache').
    unfold keyedByName. rewrite Hcache', Hres. split_and!.
    + intros key pkg.
      destruct (decide (key = pkgName)) as [->|Hne].
      * rewrite lookup_insert_eq. intros [= <-]. simpl. by apply Hkeyed.
      * rewrite lookup_insert_ne by done. apply Hkeyed.
    + rewrite dom_insert_L. apply elem_of_dom_2 in Hqueried. set_solver.
    + intros pkg [= Hpkg]. rewrite <-Hpkg, lookup_insert_eq. simpl.
      split_and!; [done| |done]. by apply Hkeyed.
  - pose proof (getPackageInfo_not_found _ _ _ _ _ Hqueried Hinfo)
      as [Hcache' [err Hres]].
    rewrite Hcache', Hres. by split_and!.
Qed.

Lemma getPackageInfo_keeps_index_keyed_witness :
  getPackageInfo "B" pulledIn (map_to_list (packages pulledIn))
  = Some (queriedB, inl (dependencyPkgRequiredBy "B" ["C"] ["A"]))
  /\ keyedByName queriedB
  /\ dom (packages queriedB) = dom (packages pulledIn)
  /\ (forall pkg, inl (dependencyPkgRequiredBy "B" ["C"] ["A"]) = @inl Package error pkg ->
        packages queriedB !! "B" = Some pkg
        /\ Name pkg = "B"
        /\ findRequiredBy "B" (map_to_list (packages pulledIn))
           = Some (RequiredBy pkg)).
Proof.
  split; [reflexivity|].
  apply (getPackageInfo_keeps_index_keyed "B" pulledIn queriedB
           (map_to_list (packages pulledIn))).
  - change (map_Forall (λ key pkg, Name pkg = key) (packages pulledIn)).
    apply (bool_decide_unpack (map_Forall (λ key pkg, Name pkg = key)
                                          (packages pulledIn))).
    vm_compute. exact I.
  - reflexivity.
Defined.

(* --------------------------------------------------------------------- *)
(* displayPackageInfo                                                    *)
(* --------------------------------------------------------------------- *)

Section Display.

(* an index loop over a slice reads every element once, in order *)
Lemma fmap_seq_lookup_total {A B : Type} `{!Inhabited A} (f : nat -> A -> B) (l : list A) :
  (λ j, f j (l !!! j)) <$> seq 0 (length l) = imap f l.
Proof.
  apply list_eq. intros i.
  rewrite list_lookup_fmap, list_lookup_imap.
  destruct (l !! i) as [x|] eqn:Hi.
  - rewrite lookup_seq_lt by (by eapply lookup_lt_Some). simpl.
    by rewrite (list_lookup_total_correct _ _ _ Hi).
  - rewrite lookup_seq_ge; [done|]. by apply lookup_ge_None.
Qed.

Lemma bind_as_join {A B : Type} (f : A -> list B) (l : list A) :
  l ≫= f = mjoin (f <$> l).
Proof. induction l as [|x l IH]; csimpl; [done|]. by rewrite IH. Qed.

Lemma chainBlock_render (chains : list InstallChain) (i : nat) :
  chainBlock chains i = renderChain i (chains !!! i).
Proof.
  unfold chainBlock, renderChain, InstallChain. cbv zeta.
  by rewrite <-(fmap_seq_lookup_total (renderLine (length (chains !!! i)))
                                      (chains !!! i)).
Qed.

(* the loop over the first displayCount chains *)
Lemma chainBlocks_take (chains : list InstallChain) :
  seq 0 (if Nat.ltb 6 (length chains) then 6 else length chains) ≫= chainBlock chains
  = mjoin (imap renderChain (take 6 chains)).
Proof.
  rewrite bind_as_join. f_equal.
  rewrite <-fmap_seq_lookup_total, length_take.
  replace (if Nat.ltb 6 (length chains) then 6 else length chains)
    with (6 `min` length chains)
    by (destruct (Nat.ltb_spec 6 (length chains)); lia).
  apply list_eq. intros i. rewrite !list_lookup_fmap.
  destruct (seq 0 (6 `min` length chains) !! i) as [j|] eqn:Hj; [|done].
  apply lookup_seq in Hj as [-> Hi]. simpl.
  rewrite chainBlock_render. by rewrite lookup_total_take_lt by lia.
Qed.

Lemma displayChains_take (chains : list InstallChain) :
  chains <> [] ->
  displayChains chains
  = [chainsIntro]
    ++ mjoin (imap renderChain (take 6 chains))
    ++ (if Nat.ltb 5 (length chains) then [moreChains (length chains - 5)] else []).
Proof.
  intros Hne. unfold displayChains.
  destruct chains as [|chain chains]; [done|].
  change (Nat.ltb 0 (length (chain :: chains))) with true. cbv iota.
  by rewrite chainBlocks_take.
Qed.

End Display.

(** X21: what displayPackageInfo writes about chains.  For an explicitly
    installed package no chain is written, whatever chains it is given.
    For a package installed as a dependency with at least one chain, the
    first six chains are written, each as a numbered header, one line per
    package and an empty line, and from six chains on the note "... and n
    more chain(s)" follows with n the number of chains minus five; so
    with exactly six chains all six are written and one more is
    announced. *)
Theorem displayPackageInfo_chains (pkg : Package) (chains : list InstallChain) :
  (InstallReason pkg = ExplicitlyInstalled ->
   displayPackageInfo pkg chains = heading pkg ++ [explicitReason] ++ sections pkg)
  /\ (InstallReason pkg <> ExplicitlyInstalled ->
      chains <> [] ->
      displayPackageInfo pkg chains
      = heading pkg
        ++ [dependencyReason; chainsIntro]
        ++ mjoin (imap renderChain (take 6 chains))
        ++ (if Nat.ltb 5 (length chains) then [moreChains (length chains - 5)] else [])
        ++ sections pkg)
  /\ (InstallReason pkg <> ExplicitlyInstalled ->
      length chains = 6 ->
      displayPackageInfo pkg chains
      = heading pkg
        ++ [dependencyReason; chainsIntro]
        ++ mjoin (imap renderChain chains)
        ++ ["... and 1 more chain(s)" +:+ newline +:+ newline]
        ++ sections pkg).
Proof.
  unfold displayPackageInfo. split_and!.
  - intros ->. done.
  - intros Hreason%String.eqb_neq Hchains. rewrite Hreason.
    rewrite displayChains_take by done. by rewrite <-!(assoc_L (++)).
  - intros Hreason%String.eqb_neq Hlen. rewrite Hreason.
    rewrite displayChains_take by (by destruct chains).
    rewrite firstn_all2 by lia. rewrite Hlen. by rewrite <-!(assoc_L (++)).
Qed.

Lemma displayPackageInfo_chains_witness :
  InstallReason (dependencyPkg "Z" []) <> ExplicitlyInstalled
  /\ displayPackageInfo (dependencyPkg "Z" []) [["X"; "Z"]; ["Y"; "W"; "Z"]]
     = heading (dependencyPkg "Z" [])
       ++ [dependencyReason; chainsIntro;
           "Chain 1:" +:+ newline;
           "X (explicitly installed)" +:+ newline;
           "  Z (target package)" +:+ newline;
           newline;
           "Chain 2:" +:+ newline;
           "Y (explicitly installed)" +:+ newline;
           "  W" +:+ newline;
           "    Z (target package)" +:+ newline;
           newline]
       ++ sections (dependencyPkg "Z" []).
Proof.
  split; [discriminate|].
  rewrite (proj1 (proj2 (displayPackageInfo_chains
                           (dependencyPkg "Z" []) [["X"; "Z"]; ["Y"; "W"; "Z"]])));
    [reflexivity|discriminate|discriminate].
Defined.

(* --------------------------------------------------------------------- *)
(* findPackageDir                                                        *)
(* --------------------------------------------------------------------- *)

Section PackageDir.

Lemma append_assoc (s1 s2 s3 : string) : (s1 +:+ s2) +:+ s3 = s1 +:+ s2 +:+ s3.
Proof. induction s1 as [|a s1 IH]; [done|]. by rewrite !append_cons, IH. Qed.

Lemma prefix_append (p s : string) : String.prefix p (p +:+ s) = true.
Proof.
  induction p as [|a p IH]; [by destruct s|].
  rewrite append_cons. simpl. by destruct (ascii_dec a a).
Qed.

Lemma findPackageDir_range_first pkgName (before after : list DirEntry) entry :
  Forall (λ e, isPackageDir pkgName e = false) before ->
  isPackageDir pkgName entry = true ->
  findPackageDir_range pkgName (before ++ entry :: after) = Some (packageDirPath entry).
Proof.
  intros Hbefore Hentry.
  induction Hbefore as [|e before He _ IH]; simpl; [by rewrite Hentry|].
  by rewrite He.
Qed.

Lemma findPackageDir_range_none pkgName (entries : list DirEntry) :
  Forall (λ e, isPackageDir pkgName e = false) entries ->
  findPackageDir_range pkgName entries = None.
Proof. induction 1 as [|e entries He _ IH]; simpl; [done|]. by rewrite He. Qed.

End PackageDir.

(** X22: findPackageDir returns the path of the first directory of the
    store whose name begins with the queried name followed by '-', and
    the error "package directory not found for package: <name>" when
    there is none.  Every directory name of the form <name>-<anything>
    passes the test, so a query for a package that is not installed
    returns the directory of an installed package whose name extends
    it. *)
Theorem findPackageDir_first_match (pkgName : string) :
  (forall before entry after,
      Forall (λ e, isPackageDir pkgName e = false) before ->
      isPackageDir pkgName entry = true ->
      findPackageDir pkgName (inl (before ++ entry :: after))
      = inl (pacmanLocalDBPath +:+ entryName entry))
  /\ (forall entries,
         Forall (λ e, isPackageDir pkgName e = false) entries ->
         findPackageDir pkgName (inl entries)
         = inr ("package directory not found for package: " +:+ pkgName))
  /\ (forall entry rest,
         IsDir entry = true ->
         entryName entry = pkgName +:+ "-" +:+ rest ->
         isPackageDir pkgName entry = true).
Proof.
  split_and!.
  - intros before entry after Hbefore Hentry. simpl.
    by rewrite (findPackageDir_range_first _ _ _ _ Hbefore Hentry).
  - intros entries Hnone. simpl. by rewrite findPackageDir_range_none.
  - intros entry rest Hdir Hname. unfold isPackageDir, GoStrings.HasPrefix.
    by rewrite Hdir, Hname, <-append_assoc, prefix_append.
Qed.

Lemma findPackageDir_first_match_witness :
  entryName (mkEntry "gcc-libs-13.2.1-1" true (Readable ["%NAME%"; "gcc-libs"] None))
  = "gcc" +:+ "-" +:+ "libs-13.2.1-1"
  /\ findPackageDir "gcc" (inl onlyGccLibs)
     = inl "/var/lib/pacman/local/gcc-libs-13.2.1-1".
Proof.
  split; [reflexivity|].
  apply (proj1 (findPackageDir_first_match "gcc")
               [mkEntry "ALPM_DB_VERSION" false (Unreadable "not a directory")]
               (mkEntry "gcc-libs-13.2.1-1" true (Readable ["%NAME%"; "gcc-libs"] None))
               []).
  - repeat constructor.
  - apply (proj2 (proj2 (findPackageDir_first_match "gcc")) _ "libs-13.2.1-1");
      reflexivity.
Defined.

(* --------------------------------------------------------------------- *)
(* Chains returned more than once                                        *)
(* --------------------------------------------------------------------- *)

Section RepeatedChains.

Implicit Types (pkg : Package) (deps : list string)
         (entries : list (string * Package))
         (reverseDeps : gmap string (list string)).

Lemma contributes_nil d pkg deps :
  (forall dep, dep ∈ deps -> cleanDependencyName dep <> Some d) ->
  deps ≫= (λ dep, if decide (cleanDependencyName dep = Some d) then [Name pkg] else [])
  = [].
Proof.
  induction deps as [|dep deps IH]; intros Hno; csimpl; [done|].
  rewrite decide_False by (apply Hno; left).
  apply IH. intros dep' Hdep'. apply Hno. by right.
Qed.

Lemma contributes_NoDup d pkg :
  NoDup (omap cleanDependencyName (Dependencies pkg)) -> NoDup (contributes d pkg).
Proof.
  unfold contributes. induction (Dependencies pkg) as [|dep deps IH]; csimpl;
    [constructor|].
  destruct (cleanDependencyName dep) as [depName|] eqn:Hdep.
  - intros [Hnotin Hnodup]%NoDup_cons.
    case_decide as Hd; [|by apply IH]. injection Hd as ->.
    rewrite contributes_nil; [apply NoDup_singleton|].
    intros dep' Hdep' Hclean. apply Hnotin, list_elem_of_omap. by exists dep'.
  - intros Hnodup. case_decide; [done|]. by apply IH.
Qed.

Lemma NoDup_fmap_eq {A B : Type} (f : A -> B) (l : list A) (x y : A) :
  NoDup (f <$> l) -> x ∈ l -> y ∈ l -> f x = f y -> x = y.
Proof.
  induction l as [|z l IH]; csimpl; [by intros _ ?%elem_of_nil|].
  intros [Hz Hl]%NoDup_cons [->|Hx]%elem_of_cons [->|Hy]%elem_of_cons Hxy; [done| | |auto].
  - destruct Hz. rewrite Hxy. by apply list_elem_of_fmap_2.
  - destruct Hz. rewrite <-Hxy. by apply list_elem_of_fmap_2.
Qed.

Lemma dependentsOf_NoDup d entries :
  distinctDependencies entries ->
  NoDup ((λ entry, Name entry.2) <$> entries) ->
  NoDup (dependentsOf d entries).
Proof.
  intros Hdistinct Hnames. unfold dependentsOf. apply NoDup_bind.
  - intros e1 e2 P He1 He2 [HP1 _]%elem_of_contributes [HP2 _]%elem_of_contributes.
    apply (NoDup_fmap_eq (λ entry : string * Package, Name entry.2) entries);
      [done..|congruence].
  - intros entry Hentry. apply contributes_NoDup.
    unfold distinctDependencies in Hdistinct. rewrite Forall_forall in Hdistinct.
    by apply Hdistinct.
  - by eapply NoDup_fmap_1.
Qed.

Lemma chainsFrom_distinct (cache : PackageCache) reverseDeps fuel onPath currentPkg path :
  (forall k, NoDup (reverseDeps !!! k)) ->
  NoDup (chainsFrom fuel cache reverseDeps onPath currentPkg path).
Proof.
  intros Hrd. revert onPath currentPkg path.
  induction fuel as [|fuel IH]; intros onPath currentPkg path; simpl; [constructor|].
  case_decide; [constructor|].
  destruct (isExplicit cache currentPkg); [apply NoDup_singleton|].
  apply NoDup_bind; [|by intros d _; apply IH|apply Hrd].
  intros d1 d2 chain _ _ [k1 ->]%chainsFrom_prefix [k2 Heq]%chainsFrom_prefix.
  rewrite <-!(assoc_L (++)) in Heq. apply app_inv_head in Heq. by injection Heq.
Qed.

End RepeatedChains.

(** X23: on an index keyed by name in which no record lists two
    dependency specifiers that normalise to the same name,
    findInstallationChains returns no chain twice.  (A record that lists,
    say, "libfoo>=1.0" and "libfoo<2.0" is stored twice under libfoo, and
    every chain through it is then found twice.) *)
Theorem chains_not_repeated
        (cache : PackageCache) (entries : list (string * Package))
        (targetPkg : string) (fuel : nat) (chains : list InstallChain) :
  keyedByName cache ->
  rangeOf cache entries ->
  distinctDependencies entries ->
  findInstallationChains fuel targetPkg cache entries = Done chains ->
  NoDup chains.
Proof.
  intros Hkeyed Hrange Hdistinct (reverseDeps & Hbuild & ->)%findInstallationChains_Done.
  apply NoDup_fmap_2_strong.
  - intros c1 c2 _ _ Heq. by rewrite <-(reverse_involutive c1), Heq, reverse_involutive.
  - apply chainsFrom_distinct. intros k.
    rewrite (buildReverseDependencyMap_lookup _ _ k Hbuild).
    apply dependentsOf_NoDup; [done|].
    assert ((λ entry : string * Package, Name entry.2) <$> entries = entries.*1) as ->.
    { apply list_fmap_ext. intros i [key pkg] Hin%list_elem_of_lookup_2.
      rewrite Hrange in Hin. apply elem_of_map_to_list in Hin. by apply Hkeyed. }
    rewrite Hrange. apply NoDup_fst_map_to_list.
Qed.

Lemma chains_not_repeated_witness :
  findInstallationChains 5 "Z" diamond (map_to_list (packages diamond))
  = Done [["Y"; "Z"]; ["X"; "Z"]]
  /\ NoDup [["Y"; "Z"]; ["X"; "Z"]].
Proof.
  split; [reflexivity|].
  apply (chains_not_repeated diamond (map_to_list (packages diamond)) "Z" 5).
  - change (map_Forall (λ key pkg, Name pkg = key) (packages diamond)).
    apply (bool_decide_unpack (map_Forall (λ key pkg, Name pkg = key)
                                          (packages diamond))).
    vm_compute. exact I.
  - unfold rangeOf. reflexivity.
  - apply (bool_decide_unpack (distinctDependencies (map_to_list (packages diamond)))).
    vm_compute. exact I.
  - reflexivity.
Defined.

(* --------------------------------------------------------------------- *)
(* Where findRequiredBy panics                                           *)
(* --------------------------------------------------------------------- *)

Section RequiredByPanics.

Implicit Types (pkg : Package) (deps requiredBy : list string)
         (entries : list (string * Package)).

Lemma findRequiredBy_deps_None pkgName pkg deps requiredBy :
  findRequiredBy_deps pkgName pkg deps requiredBy = None
  <-> panicsBeforeMatch pkgName deps.
Proof.
  unfold panicsBeforeMatch.
  induction deps as [|dep deps IH]; cbn [findRequiredBy_deps].
  { split; [done|]. intros ([|??] & ? & ? & [=] & _). }
  destruct (cleanDependencyName dep) as [depName|] eqn:Hdep.
  - destruct (String.eqb_spec depName pkgName) as [->|Hne].
    + split; [done|].
      intros ([|b before] & d & after & [= <- Hdeps] & Hd & Hbefore); [congruence|].
      apply Forall_cons in Hbefore as [(n & Hn & Hne) _]. congruence.
    + rewrite IH. split.
      * intros (before & d & after & -> & Hd & Hbefore).
        exists (dep :: before), d, after. split_and!; [done..|].
        constructor; [by exists depName|done].
      * intros ([|b before] & d & after & [= <- Hdeps] & Hd & Hbefore); [congruence|].
        apply Forall_cons in Hbefore as [_ Hbefore]. by exists before, d, after.
  - split; [|done]. intros _. by exists [], dep, deps.
Qed.

Lemma findRequiredBy_from_None pkgName entries requiredBy :
  forEach (fun entry rb =>
             findRequiredBy_deps pkgName entry.2 (Dependencies entry.2) rb)
          entries requiredBy = None
  <-> exists entry, entry ∈ entries /\ panicsBeforeMatch pkgName (Dependencies entry.2).
Proof.
  revert requiredBy. induction entries as [|entry entries IH]; intros requiredBy; simpl.
  { split; [done|]. by intros (? & ?%elem_of_nil & _). }
  destruct (findRequiredBy_deps pkgName entry.2 _ requiredBy) as [rb1|] eqn:Hentry.
  - rewrite IH. split.
    + intros (e & He & Hpanic). exists e. split; [by right|done].
    + intros (e & [->|He]%elem_of_cons & Hpanic); [|by exists e].
      apply (findRequiredBy_deps_None pkgName entry.2 _ requiredBy) in Hpanic.
      congruence.
  - split; [|done]. intros _. exists entry. split; [left|].
    by apply (findRequiredBy_deps_None pkgName entry.2 _ requiredBy).
Qed.

End RequiredByPanics.

(** X24: findRequiredBy(N) panics exactly when some record reaches a
    dependency specifier without a name (only ' ', '<', '>', '=', or
    empty) before any of its specifiers that normalises to N: the scan of
    a record stops at the first match, so specifiers after it are never
    cleaned. *)
Theorem findRequiredBy_panics_iff
        (pkgName : string) (entries : list (string * Package)) :
  findRequiredBy pkgName entries = Panic
  <-> exists entry, entry ∈ entries /\ panicsBeforeMatch pkgName (Dependencies entry.2).
Proof. apply findRequiredBy_from_None. Qed.

Lemma findRequiredBy_panics_iff_witness :
  findRequiredBy "glibc" [("p", mkPackage "p" "" ExplicitlyInstalled
                                         ["bash"; "="; "glibc"] [])] = Panic
  /\ findRequiredBy "bash" [("p", mkPackage "p" "" ExplicitlyInstalled
                                           ["bash"; "="; "glibc"] [])] = Some ["p"].
Proof.
  split; [|reflexivity].
  apply (proj2 (findRequiredBy_panics_iff
                  "glibc" [("p", mkPackage "p" "" ExplicitlyInstalled
                                           ["bash"; "="; "glibc"] [])])).
  exists ("p", mkPackage "p" "" ExplicitlyInstalled ["bash"; "="; "glibc"] []).
  split; [apply list_elem_of_here|].
  exists ["bash"], "=", ["glibc"]. split_and!; [reflexivity..|].
  constructor; [|constructor]. exists "bash". split; [reflexivity|discriminate].
Defined.

(** X25: on an index keyed by name, every package of a chain
    findInstallationChains returns, the target apart, is a package of the
    index, and no chain is longer than the number of packages of the
    index plus one. *)
Theorem chain_packages_are_indexed
        (cache : PackageCache) (entries : list (string * Package))
        (targetPkg : string) (fuel : nat) (chains : list InstallChain)
        (chain : list string) :
  keyedByName cache ->
  rangeOf cache entries ->
  findInstallationChains fuel targetPkg cache entries = Done chains ->
  chain ∈ chains ->
  (forall P, P ∈ chain -> P = targetPkg \/ is_Some (packages cache !! P))
  /\ length chain <= size (packages cache) + 1.
Proof.
  intros Hkeyed Hrange (reverseDeps & Hbuild & ->)%findInstallationChains_Done.
  intros (trail & -> & (rest & -> & _ & Htrail)%chainsFrom_trails)%list_elem_of_fmap.
  assert (forall d, d ∈ rest -> d ∈ (map_to_list (packages cache)).*1) as Hrest.
  { intros d Hd. apply validTrail_stored in Htrail.
    rewrite Forall_forall in Htrail. destruct (Htrail d Hd) as [k Hk].
    rewrite (buildReverseDependencyMap_lookup _ _ k Hbuild) in Hk.
    apply elem_of_dependentsOf in Hk as ([key pkg] & Hentry & -> & _).
    rewrite Hrange in Hentry. apply list_elem_of_fmap. exists (key, pkg).
    split; [|done]. apply elem_of_map_to_list in Hentry. simpl.
    by apply Hkeyed. }
  split.
  - intros P [->%list_elem_of_singleton|HP]%elem_of_reverse%elem_of_app; [by left|].
    right. apply Hrest in HP.
    apply list_elem_of_fmap in HP as ([key pkg] & -> & Hin).
    apply elem_of_map_to_list in Hin. by exists pkg.
  - rewrite length_reverse, length_app. simpl.
    assert (length rest <= length ((map_to_list (packages cache)).*1)) as Hlen.
    { apply submseteq_length, NoDup_submseteq; [|done].
      apply validTrail_properties in Htrail as (Hnodup & _).
      by apply NoDup_cons in Hnodup as [_ ?]. }
    rewrite length_fmap, length_map_to_list in Hlen. lia.
Qed.

Lemma chain_packages_are_indexed_witness :
  findInstallationChains 5 "N" rootedCycle (map_to_list (packages rootedCycle))
  = Done [["R"; "M"; "N"]]
  /\ (forall P, P ∈ ["R"; "M"; "N"] ->
                P = "N" \/ is_Some (packages rootedCycle !! P))
  /\ length ["R"; "M"; "N"] <= size (packages rootedCycle) + 1.
Proof.
  split; [reflexivity|].
  apply (chain_packages_are_indexed
           rootedCycle (map_to_list (packages rootedCycle)) "N" 5 [["R"; "M"; "N"]]).
  - change (map_Forall (λ key pkg, Name pkg = key) (packages rootedCycle)).
    apply (bool_decide_unpack (map_Forall (λ key pkg, Name pkg = key)
                                          (packages rootedCycle))).
    vm_compute. exact I.
  - unfold rangeOf. reflexivity.
  - reflexivity.
  - apply list_elem_of_here.
Defined.
